(** * GrPathRenderer: the path-rendering dispatch layer

    A shallow embedding of [src/gpu/GrPathRenderer.h]: the non-virtual
    wrappers [getStencilSupport], [canDrawPath], [drawPath] and
    [stencilPath], the default bodies of the virtual hooks
    [onGetStencilSupport] and [onStencilPath], and the static helpers
    [IsStrokeHairlineOrEquivalent] and [GetPathDevBounds].

    Conventions
    - a C++ pointer is an [option]: [None] is the null pointer;
    - a build is debug ([SK_DEBUG] defined) or optimized: every wrapper takes
      the build as a [bool];
    - a computation ends in an [outcome]: it returns, halts at a failed
      assertion (the site is recorded), or faults on a null dereference;
    - the draw target is an explicit state, threaded through the executors;
    - memory reached through an out-pointer is a finite map of cells. *)

From Stdlib Require Import ZArith Bool Ascii.
From stdpp Require Import base decidable option gmap strings.

Local Open Scope Z_scope.

(** ** Pointers *)

Abbreviation ptr A := (option A) (only parsing).

Definition nonnull {A : Type} (p : ptr A) : bool :=
  match p with Some _ => true | None => false end.

(** ** Assertion sites and outcomes *)

(** The member an [SkASSERT] of a [validate()] looks at. *)
Inductive args_field : Set :=
  | of_fShaderCaps
  | of_fResourceProvider
  | of_fPaint
  | of_fUserStencilSettings
  | of_fDrawContext
  | of_fClip
  | of_fViewMatrix
  | of_fPath
  | of_fStyle
  | of_isEmpty.

(** Every [SkASSERT] of the header, and one constructor for the assertions a
    subclass may make inside its own hooks. *)
Inductive assertion : Set :=
  | in_getStencilSupport
  | in_CanDrawPathArgs_validate (f : args_field)
  | in_DrawPathArgs_validate (f : args_field)
  | in_StencilPathArgs_validate (f : args_field)
  | in_drawPath_canDrawPath
  | in_drawPath_kNoRestriction
  | in_drawPath_isSimpleFill
  | in_stencilPath_support
  | in_subclass (tag : nat).

#[global] Instance args_field_eq_dec : EqDecision args_field.
Proof. solve_decision. Defined.

#[global] Instance assertion_eq_dec : EqDecision assertion.
Proof. solve_decision. Defined.

(** The assertions written in this header (all but a subclass's own). *)
Definition in_wrapper (a : assertion) : bool :=
  match a with in_subclass _ => false | _ => true end.

Inductive outcome (A : Type) : Type :=
  | Done (a : A)
  | Halt (site : assertion)
  | Fault.

Arguments Done {A} a.
Arguments Halt {A} site.
Arguments Fault {A}.

#[global] Instance outcome_ret : MRet outcome := @Done.

#[global] Instance outcome_bind : MBind outcome := λ A B f m,
  match m with
  | Done a => f a
  | Halt s => Halt s
  | Fault => Fault
  end.

(** [*p] and [p->m]: a null pointer faults. *)
Definition deref {A : Type} (p : ptr A) : outcome A :=
  match p with Some a => Done a | None => Fault end.

(** Modelled from the spec: the macros [SkASSERT] and [SkDEBUGCODE] of
    SkTypes.h, which is not among the sources. Section 7: contract violations
    are "checked eagerly with hard assertions that halt execution" in debug
    builds and are "unchecked" in optimized builds. The condition is not
    evaluated in an optimized build. *)
Definition SkASSERT (SK_DEBUG : bool) (site : assertion)
    (cond : outcome bool) : outcome unit :=
  if SK_DEBUG then b ← cond; if b : bool then Done tt else Halt site
  else Done tt.

Definition SkDEBUGCODE (SK_DEBUG : bool) (code : outcome unit) : outcome unit :=
  if SK_DEBUG then code else Done tt.

(** ** External collaborators *)

(** The types this header only names: their declarations live in headers that
    are not among the sources. [Frame] is the state of the draw target (colour
    and stencil contents) that the executors mutate. *)
Class SkiaTypes : Type := {
  SkScalar : Type;
  SkMatrix : Type;
  SkPathEffect : Type;
  GrShaderCaps : Type;
  GrClip : Type;
  GrFixedClip : Type;
  GrPaint : Type;
  GrResourceProvider : Type;
  GrDrawContext : Type;
  Frame : Type
}.

(** A cell an [SkScalar*] may point to. *)
Abbreviation loc := N (only parsing).

(** [GrColor]: 32 bits, one byte per channel. *)
Abbreviation GrColor := Z (only parsing).

Definition GrColor_WHITE : GrColor := 0xFFFFFFFF.

Definition GrColorUnpack (c : GrColor) (shift : Z) : Z :=
  Z.land (Z.shiftr c shift) 0xFF.

(** *** Stencil rules (GrUserStencilSettings.h) *)

Inductive GrUserStencilTest : Set :=
  | kAlwaysIfInClip
  | kEqualIfInClip
  | kLessIfInClip
  | kLEqualIfInClip
  | kAlways
  | kNever
  | kGreater
  | kGEqual
  | kLess
  | kLEqual
  | kEqual
  | kNotEqual.

Inductive GrUserStencilOp : Set :=
  | kKeep
  | kZero
  | kReplace
  | kInvert
  | kIncWrap
  | kDecWrap
  | kIncMaybeClamp
  | kDecMaybeClamp
  | kZeroClipBit
  | kSetClipBit
  | kInvertClipBit
  | kSetClipAndReplaceUserBits
  | kZeroClipAndUserBits.

(** The six template arguments of [GrUserStencilSettings::StaticInit], in
    their order. *)
Record StaticInit : Set := {
  Ref : Z;
  Test : GrUserStencilTest;
  TestMask : Z;
  PassOp : GrUserStencilOp;
  FailOp : GrUserStencilOp;
  WriteMask : Z
}.

(** Modelled from the spec: a user stencil-rule set "may be unused, meaning no
    externally imposed stencil semantics". [isUnused] recognises the one
    distinguished object [kUnused]; any object built with [StaticInit] is a
    different object, whatever its contents. *)
Inductive GrUserStencilSettings : Set :=
  | kUnused
  | UserStencil (init : StaticInit).

Definition isUnused (s : GrUserStencilSettings) : bool :=
  match s with kUnused => true | UserStencil _ => false end.

(** ** The stencil support levels *)

Inductive StencilSupport : Set :=
  | kNoSupport_StencilSupport
  | kStencilOnly_StencilSupport
  | kNoRestriction_StencilSupport.

#[global] Instance StencilSupport_eq_dec : EqDecision StencilSupport.
Proof. solve_decision. Defined.

(** The enumerators' values, in declaration order. *)
Definition StencilSupport_value (s : StencilSupport) : Z :=
  match s with
  | kNoSupport_StencilSupport => 0
  | kStencilOnly_StencilSupport => 1
  | kNoRestriction_StencilSupport => 2
  end.

(** [weaker_or_equal a b]: level [a] promises no more than level [b]. *)
Definition weaker_or_equal (a b : StencilSupport) : Prop :=
  StencilSupport_value a <= StencilSupport_value b.

(** ** Geometry and style (SkRect.h, SkPath.h, SkStrokeRec.h, GrStyle.h) *)

Section declarations.
Context `{SkiaTypes}.

Record SkRect : Type := {
  fLeft : SkScalar;
  fTop : SkScalar;
  fRight : SkScalar;
  fBottom : SkScalar
}.

(** [SkPath] is only forward-declared here; the record keeps the three
    queries made on a path. *)
Record SkPath : Type := {
  isInverseFillType : bool;
  isEmpty : bool;
  getBounds : SkRect
}.

Inductive SkStrokeRec_Style : Set :=
  | kHairline_Style
  | kFill_Style
  | kStroke_Style
  | kStrokeAndFill_Style.

Record SkStrokeRec : Type := {
  getStyle : SkStrokeRec_Style;
  getWidth : SkScalar
}.

Definition isHairlineStyle (s : SkStrokeRec) : bool :=
  match getStyle s with kHairline_Style => true | _ => false end.

Definition isFillStyle (s : SkStrokeRec) : bool :=
  match getStyle s with kFill_Style => true | _ => false end.

Record GrStyle : Type := {
  pathEffect : ptr SkPathEffect;
  strokeRec : SkStrokeRec
}.

(** Modelled from the spec: "a simple (non-dashed, non-path-effect) fill". *)
Definition isSimpleFill (s : GrStyle) : bool :=
  isFillStyle (strokeRec s) && negb (nonnull (pathEffect s)).

End declarations.

#[global] Instance SkStrokeRec_Style_eq_dec : EqDecision SkStrokeRec_Style.
Proof. solve_decision. Defined.

(** The operations of the collaborators that the header calls. *)
Class SkiaOps `{SkiaTypes} : Type := {
  (* SkScalar.h *)
  SK_Scalar1 : SkScalar;
  SkIntToScalar : Z → SkScalar;
  (* SkStrokeRec.h: the width a fill style records *)
  kStrokeRec_FillStyleWidth : SkScalar;
  (* SkMatrix::mapRect, as a function of the rectangle *)
  mapRect : SkMatrix → SkRect → SkRect;
  (* the value a default-constructed [GrPaint] has *)
  GrPaint_default : GrPaint;
  (* [provider->caps()->shaderCaps()] *)
  shaderCaps : GrResourceProvider → ptr GrShaderCaps;
  (* GrDrawContext::isStencilBufferMultisampled *)
  isStencilBufferMultisampled : GrDrawContext → bool;
  (* SkDrawProcs.h: the device-space thin-stroke test; it is handed the
     coverage pointer and the memory, and returns its answer and the memory *)
  SkDrawTreatAAStrokeAsHairline :
    SkScalar → SkMatrix → ptr loc → gmap loc SkScalar → bool * gmap loc SkScalar
}.

Section style_constants.
Context `{SkiaOps}.

(** [GrStyle::SimpleFill()]: a fill, no path effect. *)
Definition SimpleFill : GrStyle :=
  {| pathEffect := None;
     strokeRec := {| getStyle := kFill_Style;
                     getWidth := kStrokeRec_FillStyleWidth |} |}.

Definition SkRect_MakeWH (w h : SkScalar) : SkRect :=
  {| fLeft := SkIntToScalar 0; fTop := SkIntToScalar 0;
     fRight := w; fBottom := h |}.

End style_constants.

(** ** The request bundles *)

Module CanDrawPathArgs.
Section bundle.
Context `{SkiaTypes}.

Record t : Type := {
  fShaderCaps : ptr GrShaderCaps;
  fViewMatrix : ptr SkMatrix;
  fPath : ptr SkPath;
  fStyle : ptr GrStyle;
  fAntiAlias : bool;
  fHasUserStencilSettings : bool;
  fIsStencilBufferMSAA : bool
}.

Definition validate (SK_DEBUG : bool) (a : t) : outcome unit :=
  SkASSERT SK_DEBUG (in_CanDrawPathArgs_validate of_fShaderCaps)
    (Done (nonnull (fShaderCaps a)));;
  SkASSERT SK_DEBUG (in_CanDrawPathArgs_validate of_fViewMatrix)
    (Done (nonnull (fViewMatrix a)));;
  SkASSERT SK_DEBUG (in_CanDrawPathArgs_validate of_fPath)
    (Done (nonnull (fPath a)));;
  SkASSERT SK_DEBUG (in_CanDrawPathArgs_validate of_fStyle)
    (Done (nonnull (fStyle a)));;
  SkASSERT SK_DEBUG (in_CanDrawPathArgs_validate of_isEmpty)
    (p ← deref (fPath a); Done (negb (isEmpty p))).

End bundle.
End CanDrawPathArgs.

Module DrawPathArgs.
Section bundle.
Context `{SkiaTypes}.

Record t : Type := {
  fResourceProvider : ptr GrResourceProvider;
  fPaint : ptr GrPaint;
  fUserStencilSettings : ptr GrUserStencilSettings;
  fDrawContext : ptr GrDrawContext;
  fClip : ptr GrClip;
  fColor : GrColor;
  fViewMatrix : ptr SkMatrix;
  fPath : ptr SkPath;
  fStyle : ptr GrStyle;
  fAntiAlias : bool;
  fGammaCorrect : bool
}.

Definition validate (SK_DEBUG : bool) (a : t) : outcome unit :=
  SkASSERT SK_DEBUG (in_DrawPathArgs_validate of_fResourceProvider)
    (Done (nonnull (fResourceProvider a)));;
  SkASSERT SK_DEBUG (in_DrawPathArgs_validate of_fPaint)
    (Done (nonnull (fPaint a)));;
  SkASSERT SK_DEBUG (in_DrawPathArgs_validate of_fUserStencilSettings)
    (Done (nonnull (fUserStencilSettings a)));;
  SkASSERT SK_DEBUG (in_DrawPathArgs_validate of_fDrawContext)
    (Done (nonnull (fDrawContext a)));;
  SkASSERT SK_DEBUG (in_DrawPathArgs_validate of_fClip)
    (Done (nonnull (fClip a)));;
  SkASSERT SK_DEBUG (in_DrawPathArgs_validate of_fViewMatrix)
    (Done (nonnull (fViewMatrix a)));;
  SkASSERT SK_DEBUG (in_DrawPathArgs_validate of_fPath)
    (Done (nonnull (fPath a)));;
  SkASSERT SK_DEBUG (in_DrawPathArgs_validate of_fStyle)
    (Done (nonnull (fStyle a)));;
  SkASSERT SK_DEBUG (in_DrawPathArgs_validate of_isEmpty)
    (p ← deref (fPath a); Done (negb (isEmpty p))).

End bundle.
End DrawPathArgs.

Module StencilPathArgs.
Section bundle.
Context `{SkiaTypes}.

Record t : Type := {
  fResourceProvider : ptr GrResourceProvider;
  fDrawContext : ptr GrDrawContext;
  fClip : ptr GrFixedClip;
  fViewMatrix : ptr SkMatrix;
  fPath : ptr SkPath;
  fIsAA : bool
}.

Definition validate (SK_DEBUG : bool) (a : t) : outcome unit :=
  SkASSERT SK_DEBUG (in_StencilPathArgs_validate of_fResourceProvider)
    (Done (nonnull (fResourceProvider a)));;
  SkASSERT SK_DEBUG (in_StencilPathArgs_validate of_fDrawContext)
    (Done (nonnull (fDrawContext a)));;
  SkASSERT SK_DEBUG (in_StencilPathArgs_validate of_fViewMatrix)
    (Done (nonnull (fViewMatrix a)));;
  SkASSERT SK_DEBUG (in_StencilPathArgs_validate of_fPath)
    (Done (nonnull (fPath a)));;
  SkASSERT SK_DEBUG (in_StencilPathArgs_validate of_isEmpty)
    (p ← deref (fPath a); Done (negb (isEmpty p))).

End bundle.
End StencilPathArgs.

(** ** The strategy interface *)

Section renderer.
Context `{SkiaOps}.

(** A strategy: the two pure virtual hooks, and the two virtual hooks with a
    default body, each either overridden ([Some]) or inherited ([None]).
    [onCanDrawPath] and [onGetStencilSupport] are [const]; the executors act
    on the draw target. *)
Record GrPathRenderer : Type := {
  override_onGetStencilSupport : option (SkPath → StencilSupport);
  onDrawPath : DrawPathArgs.t → Frame → outcome (bool * Frame);
  onCanDrawPath : CanDrawPathArgs.t → bool;
  override_onStencilPath : option (StencilPathArgs.t → Frame → outcome Frame)
}.

Definition onGetStencilSupport (this : GrPathRenderer) (path : SkPath)
    : StencilSupport :=
  match override_onGetStencilSupport this with
  | Some overriding => overriding path
  | None => kNoRestriction_StencilSupport
  end.

Definition getStencilSupport (SK_DEBUG : bool) (this : GrPathRenderer)
    (path : SkPath) : outcome StencilSupport :=
  SkASSERT SK_DEBUG in_getStencilSupport
    (Done (negb (isInverseFillType path)));;
  Done (onGetStencilSupport this path).

Definition canDrawPath (SK_DEBUG : bool) (this : GrPathRenderer)
    (args : CanDrawPathArgs.t) : outcome bool :=
  SkDEBUGCODE SK_DEBUG (CanDrawPathArgs.validate SK_DEBUG args);;
  Done (onCanDrawPath this args).

(** The capability query [drawPath] derives from its request in a debug
    build. *)
Definition canArgs_of (args : DrawPathArgs.t) (provider : GrResourceProvider)
    (stencil : GrUserStencilSettings) (target : GrDrawContext)
    : CanDrawPathArgs.t :=
  {| CanDrawPathArgs.fShaderCaps := shaderCaps provider;
     CanDrawPathArgs.fViewMatrix := DrawPathArgs.fViewMatrix args;
     CanDrawPathArgs.fPath := DrawPathArgs.fPath args;
     CanDrawPathArgs.fStyle := DrawPathArgs.fStyle args;
     CanDrawPathArgs.fAntiAlias := DrawPathArgs.fAntiAlias args;
     CanDrawPathArgs.fHasUserStencilSettings := negb (isUnused stencil);
     CanDrawPathArgs.fIsStencilBufferMSAA :=
       isStencilBufferMultisampled target |}.

(** The block of [drawPath] under [#ifdef SK_DEBUG]. *)
Definition drawPath_debug_checks (SK_DEBUG : bool) (this : GrPathRenderer)
    (args : DrawPathArgs.t) : outcome unit :=
  provider ← deref (DrawPathArgs.fResourceProvider args);
  stencil ← deref (DrawPathArgs.fUserStencilSettings args);
  target ← deref (DrawPathArgs.fDrawContext args);
  SkASSERT SK_DEBUG in_drawPath_canDrawPath
    (canDrawPath SK_DEBUG this (canArgs_of args provider stencil target));;
  if negb (isUnused stencil) then
    SkASSERT SK_DEBUG in_drawPath_kNoRestriction
      (path ← deref (DrawPathArgs.fPath args);
       support ← getStencilSupport SK_DEBUG this path;
       Done (bool_decide (kNoRestriction_StencilSupport = support)));;
    SkASSERT SK_DEBUG in_drawPath_isSimpleFill
      (style ← deref (DrawPathArgs.fStyle args);
       Done (isSimpleFill style))
  else Done tt.

Definition drawPath (SK_DEBUG : bool) (this : GrPathRenderer)
    (args : DrawPathArgs.t) (target : Frame) : outcome (bool * Frame) :=
  SkDEBUGCODE SK_DEBUG (DrawPathArgs.validate SK_DEBUG args);;
  (if SK_DEBUG then drawPath_debug_checks SK_DEBUG this args else Done tt);;
  onDrawPath this args target.

(** The rule the default [onStencilPath] draws with. *)
Definition kIncrementStencil : GrUserStencilSettings :=
  UserStencil {| Ref := 0xffff;
                 Test := kAlways;
                 TestMask := 0xffff;
                 PassOp := kReplace;
                 FailOp := kReplace;
                 WriteMask := 0xffff |}.

(** The default body of [onStencilPath]. Its [drawArgs] is declared without an
    initialiser and [fClip] is never assigned: the member keeps whatever value
    the storage held, here the argument [unassigned_fClip]. The [bool] that
    [drawPath] returns is dropped. *)
Definition default_onStencilPath (SK_DEBUG : bool)
    (unassigned_fClip : ptr GrClip) (this : GrPathRenderer)
    (args : StencilPathArgs.t) (target : Frame) : outcome Frame :=
  let paint := GrPaint_default in
  let drawArgs :=
    {| DrawPathArgs.fResourceProvider := StencilPathArgs.fResourceProvider args;
       DrawPathArgs.fPaint := Some paint;
       DrawPathArgs.fUserStencilSettings := Some kIncrementStencil;
       DrawPathArgs.fDrawContext := StencilPathArgs.fDrawContext args;
       DrawPathArgs.fClip := unassigned_fClip;
       DrawPathArgs.fColor := GrColor_WHITE;
       DrawPathArgs.fViewMatrix := StencilPathArgs.fViewMatrix args;
       DrawPathArgs.fPath := StencilPathArgs.fPath args;
       DrawPathArgs.fStyle := Some SimpleFill;
       DrawPathArgs.fAntiAlias := false;
       DrawPathArgs.fGammaCorrect := false |} in
  '(_, target') ← drawPath SK_DEBUG this drawArgs target;
  Done target'.

Definition onStencilPath (SK_DEBUG : bool) (unassigned_fClip : ptr GrClip)
    (this : GrPathRenderer) (args : StencilPathArgs.t) (target : Frame)
    : outcome Frame :=
  match override_onStencilPath this with
  | Some overriding => overriding args target
  | None => default_onStencilPath SK_DEBUG unassigned_fClip this args target
  end.

(** Dropping the [bool] a draw returns. *)
Definition target_of (r : outcome (bool * Frame)) : outcome Frame :=
  '(_, target') ← r; Done target'.

(** The request the default [onStencilPath] hands to [drawPath]. *)
Definition fallback_request (unassigned_fClip : ptr GrClip)
    (args : StencilPathArgs.t) : DrawPathArgs.t :=
  {| DrawPathArgs.fResourceProvider := StencilPathArgs.fResourceProvider args;
     DrawPathArgs.fPaint := Some GrPaint_default;
     DrawPathArgs.fUserStencilSettings := Some kIncrementStencil;
     DrawPathArgs.fDrawContext := StencilPathArgs.fDrawContext args;
     DrawPathArgs.fClip := unassigned_fClip;
     DrawPathArgs.fColor := GrColor_WHITE;
     DrawPathArgs.fViewMatrix := StencilPathArgs.fViewMatrix args;
     DrawPathArgs.fPath := StencilPathArgs.fPath args;
     DrawPathArgs.fStyle := Some SimpleFill;
     DrawPathArgs.fAntiAlias := false;
     DrawPathArgs.fGammaCorrect := false |}.

Definition stencilPath (SK_DEBUG : bool) (unassigned_fClip : ptr GrClip)
    (this : GrPathRenderer) (args : StencilPathArgs.t) (target : Frame)
    : outcome Frame :=
  SkDEBUGCODE SK_DEBUG (StencilPathArgs.validate SK_DEBUG args);;
  SkASSERT SK_DEBUG in_stencilPath_support
    (path ← deref (StencilPathArgs.fPath args);
     support ← getStencilSupport SK_DEBUG this path;
     Done (negb (bool_decide (kNoSupport_StencilSupport = support))));;
  onStencilPath SK_DEBUG unassigned_fClip this args target.

(** ** The static helpers *)

Definition IsStrokeHairlineOrEquivalent (style : GrStyle) (matrix : SkMatrix)
    (outCoverage : ptr loc) (mem : gmap loc SkScalar)
    : bool * gmap loc SkScalar :=
  if nonnull (pathEffect style) then (false, mem)
  else
    let stroke := strokeRec style in
    if isHairlineStyle stroke then
      (true,
       match outCoverage with
       | Some cell => <[cell := SK_Scalar1]> mem
       | None => mem
       end)
    else if bool_decide (getStyle stroke = kStroke_Style) then
      SkDrawTreatAAStrokeAsHairline (getWidth stroke) matrix outCoverage mem
    else (false, mem).

(** Modelled from the spec: [GetPathDevBounds] is declared in the header and
    defined in GrPathRenderer.cpp, which is not among the sources. Section
    4.7: for a non-inverse fill it "computes the transformed bounding box of
    the path geometry"; for an inverse-fill path it "returns the full device
    rectangle [0, deviceWidth) x [0, deviceHeight) regardless of path
    geometry". The rectangle written through [bounds] is the result. *)
Definition GetPathDevBounds (path : SkPath) (devW devH : Z)
    (matrix : SkMatrix) : SkRect :=
  if isInverseFillType path then
    SkRect_MakeWH (SkIntToScalar devW) (SkIntToScalar devH)
  else mapRect matrix (getBounds path).

End renderer.

(** ** A small instance of the collaborators, for the examples

    Scalars are integers, a matrix is a uniform scale, the draw target is the
    list of colours drawn so far, a draw context is its multisample flag. *)

Definition fixture_types : SkiaTypes :=
  {| SkScalar := Z;
     SkMatrix := Z;
     SkPathEffect := unit;
     GrShaderCaps := unit;
     GrClip := unit;
     GrFixedClip := unit;
     GrPaint := unit;
     GrResourceProvider := unit;
     GrDrawContext := bool;
     Frame := list Z |}.

Definition fixture_mapRect (scale : Z) (r : @SkRect fixture_types)
    : @SkRect fixture_types :=
  @Build_SkRect fixture_types
    (scale * @fLeft fixture_types r) (scale * @fTop fixture_types r)
    (scale * @fRight fixture_types r) (scale * @fBottom fixture_types r).

(** A thin-stroke test that honours a null coverage pointer. *)
Definition fixture_thin_stroke (width scale : Z) (out : ptr loc)
    (mem : gmap loc Z) : bool * gmap loc Z :=
  if (0 <? width * scale) && (width * scale <=? 1) then
    (true, match out with Some cell => <[cell := width * scale]> mem | None => mem end)
  else (false, mem).

Definition fixture_ops : @SkiaOps fixture_types :=
  @Build_SkiaOps fixture_types
    1 (λ n, n) (-1) fixture_mapRect tt (λ _, Some tt) (λ msaa, msaa)
    fixture_thin_stroke.

Section fixtures.
#[local] Existing Instance fixture_types.
#[local] Existing Instance fixture_ops.

Definition square : SkPath :=
  {| isInverseFillType := false; isEmpty := false;
     getBounds := {| fLeft := 0; fTop := 0; fRight := 10; fBottom := 10 |} |}.

Definition inverse_square : SkPath :=
  {| isInverseFillType := true; isEmpty := false;
     getBounds := {| fLeft := 0; fTop := 0; fRight := 10; fBottom := 10 |} |}.

Definition inverse_dot : SkPath :=
  {| isInverseFillType := true; isEmpty := false;
     getBounds := {| fLeft := 3; fTop := 3; fRight := 4; fBottom := 4 |} |}.

(** A strategy that inherits both defaults, accepts every request and records
    the colour of each draw. *)
Definition recorder : GrPathRenderer :=
  {| override_onGetStencilSupport := None;
     onDrawPath := λ args target,
       Done (true, target ++ [DrawPathArgs.fColor args]);
     onCanDrawPath := λ _, true;
     override_onStencilPath := None |}.

(** A strategy that refuses every request. *)
Definition refuser : GrPathRenderer :=
  {| override_onGetStencilSupport := None;
     onDrawPath := λ args target,
       Done (true, target ++ [DrawPathArgs.fColor args]);
     onCanDrawPath := λ _, false;
     override_onStencilPath := None |}.

(** A strategy whose classifier tells inverse fills apart. *)
Definition strict : GrPathRenderer :=
  {| override_onGetStencilSupport := Some (λ path,
       if isInverseFillType path then kNoSupport_StencilSupport
       else kNoRestriction_StencilSupport);
     onDrawPath := λ args target,
       Done (true, target ++ [DrawPathArgs.fColor args]);
     onCanDrawPath := λ _, true;
     override_onStencilPath := None |}.

(** A strategy that reports stencil-only and inherits the default
    [onStencilPath]. *)
Definition stencil_only_inheriting : GrPathRenderer :=
  {| override_onGetStencilSupport := Some (λ _, kStencilOnly_StencilSupport);
     onDrawPath := λ args target,
       Done (true, target ++ [DrawPathArgs.fColor args]);
     onCanDrawPath := λ _, true;
     override_onStencilPath := None |}.

(** A strategy that reports stencil-only and overrides [onStencilPath]: it
    marks the target with [-1]. *)
Definition stencil_only_overriding : GrPathRenderer :=
  {| override_onGetStencilSupport := Some (λ _, kStencilOnly_StencilSupport);
     onDrawPath := λ args target,
       Done (true, target ++ [DrawPathArgs.fColor args]);
     onCanDrawPath := λ _, true;
     override_onStencilPath := Some (λ _ target, Done (target ++ [-1])) |}.

(** A strategy that cannot stencil at all. *)
Definition no_stencil : GrPathRenderer :=
  {| override_onGetStencilSupport := Some (λ _, kNoSupport_StencilSupport);
     onDrawPath := λ args target,
       Done (true, target ++ [DrawPathArgs.fColor args]);
     onCanDrawPath := λ _, true;
     override_onStencilPath := None |}.

Definition stencil_request (path : SkPath) : StencilPathArgs.t :=
  {| StencilPathArgs.fResourceProvider := Some tt;
     StencilPathArgs.fDrawContext := Some false;
     StencilPathArgs.fClip := Some tt;
     StencilPathArgs.fViewMatrix := Some 1;
     StencilPathArgs.fPath := Some path;
     StencilPathArgs.fIsAA := false |}.

Definition draw_request (stencil : GrUserStencilSettings) (path : SkPath)
    (style : GrStyle) : DrawPathArgs.t :=
  {| DrawPathArgs.fResourceProvider := Some tt;
     DrawPathArgs.fPaint := Some tt;
     DrawPathArgs.fUserStencilSettings := Some stencil;
     DrawPathArgs.fDrawContext := Some false;
     DrawPathArgs.fClip := Some tt;
     DrawPathArgs.fColor := 0xFF102030;
     DrawPathArgs.fViewMatrix := Some 1;
     DrawPathArgs.fPath := Some path;
     DrawPathArgs.fStyle := Some style;
     DrawPathArgs.fAntiAlias := true;
     DrawPathArgs.fGammaCorrect := false |}.

(** What the unassigned [fClip] of the default [onStencilPath] happens to
    hold: some non-null pointer, or null. *)
Definition stale_clip : ptr GrClip := Some tt.

Definition null_clip : ptr GrClip := None.

Definition the_provider : GrResourceProvider := tt.

Definition single_sampled : GrDrawContext := false.

Definition hairline : GrStyle :=
  {| pathEffect := None;
     strokeRec := {| getStyle := kHairline_Style; getWidth := 0 |} |}.

Definition thin_stroke : GrStyle :=
  {| pathEffect := None;
     strokeRec := {| getStyle := kStroke_Style; getWidth := 1 |} |}.

Definition thick_stroke : GrStyle :=
  {| pathEffect := None;
     strokeRec := {| getStyle := kStroke_Style; getWidth := 5 |} |}.

Definition dashed : GrStyle :=
  {| pathEffect := Some tt;
     strokeRec := {| getStyle := kHairline_Style; getWidth := 0 |} |}.

End fixtures.

(** * android_install_app: the installer script

    The script of [platform_tools/android/bin], from the line after its two
    [source] commands. What those files (android_setup.sh and
    utils/setup_adb.sh, not among the sources) leave in the shell is the
    [Environment]. The unquoted expansions [${APP_ARGS[@]}], [$ADB] and
    [${DEVICE_SERIAL}] are taken after word splitting, as the lists of words
    the shell iterates over or passes on; the other variables hold one word.
    A run is what the script prints, the adb command lines it runs, in order,
    and the status of an [exit] if it reaches one ([None]: it runs to its
    last command, whose status is the script's). *)

Record Environment : Set := {
  APP_ARGS : list string;
  ADB : list string;
  DEVICE_SERIAL : list string;
  BUILDTYPE : string;
  ANDROID_ARCH : string;
  SCRIPT_DIR : string
}.

Record Run : Set := {
  stdout : list string;
  commands : list (list string);
  status : option Z
}.

Definition print_usage : list string :=
  [ "USAGE: android_install_app [options] AppName";
    " Options:         -f  Forces the package to be installed by removing any";
    "                      previously installed packages";
    "                  -h  Prints this help message";
    "            --release Install the release build of Skia";
    "      -s [device_s/n] Serial number of the device to be used";
    "              AppName Can be either SampleApp or Viewer" ].

(** [[[ ${arg} == '-'* ]]] *)
Definition is_option (arg : string) : bool :=
  match arg with
  | String "-" _ => true
  | _ => false
  end.

(** How the [for] loop over the arguments ends: at an [exit], or past the
    last word with the two variables it sets. [forceRemoval] only ever holds
    "false" or "true" and is a [bool] here. *)
Inductive parsed : Set :=
  | Exit (code : Z)
  | Parsed (forceRemoval : bool) (app : string).

(** The loop, from the word [args] starts with, in the state
    ([forceRemoval], [app]); the lines printed come first. *)
Fixpoint parse_args (args : list string) (forceRemoval : bool) (app : string)
    : list string * parsed :=
  match args with
  | [] => ([], Parsed forceRemoval app)
  | arg :: rest =>
    if bool_decide (arg = "-f") then parse_args rest true app
    else if bool_decide (arg = "-h") then (print_usage, Exit 0)
    else if bool_decide (arg = "-r") then
      let '(lines, result) := parse_args rest forceRemoval app in
      ("DEPRECATED: -r is now a no-op" :: lines, result)
    else if is_option arg then
      (("ERROR: unrecognized option " +:+ arg) :: print_usage, Exit 1)
    else if negb (bool_decide (app = "")) then
      (["ERROR: app already defined " +:+ app], Exit 1)
    else parse_args rest forceRemoval arg
  end.

(** [tr "[:upper:]" "[:lower:]"], on the letters A to Z. *)
Definition to_lower (c : ascii) : ascii :=
  let n := N_of_ascii c in
  if (65 <=? n)%N && (n <=? 90)%N then ascii_of_N (n + 32) else c.

Fixpoint tr_upper_lower (s : string) : string :=
  match s with
  | EmptyString => EmptyString
  | String c rest => String (to_lower c) (tr_upper_lower rest)
  end.

Definition apk_path (APP_LC ANDROID_ARCH apk_suffix : string) : string :=
  APP_LC +:+ "/build/outputs/apk/" +:+ APP_LC +:+ "-" +:+ ANDROID_ARCH
    +:+ "-" +:+ apk_suffix.

(** The script after the loop: the two variables are those the loop left. *)
Definition install (env : Environment) (forceRemoval : bool) (app : string)
    : Run :=
  let '(defaulting, app) :=
    if bool_decide (app = "") then
      (["Defaulting to installing SampleApp."], "SampleApp")
    else ([], app) in
  let '(forcing, uninstall) :=
    if forceRemoval then
      (["Forcing removal of previously installed packages"],
       [ADB env ++ DEVICE_SERIAL env ++ ["uninstall"; "com.skia"]])
    else ([], []) in
  let apk_suffix :=
    if bool_decide (BUILDTYPE env = "Release") then "release.apk"
    else "debug.apk" in
  let app := if bool_decide (app = "SampleApp") then "sample_app" else app in
  let APP_LC := tr_upper_lower app in
  {| stdout :=
       defaulting ++ forcing
       ++ ["Installing " +:+ APP_LC +:+ " from "
           +:+ apk_path APP_LC (ANDROID_ARCH env) apk_suffix];
     commands :=
       uninstall
       ++ [ADB env ++ DEVICE_SERIAL env
           ++ ["install"; "-r";
               SCRIPT_DIR env +:+ "/../apps/"
               +:+ apk_path APP_LC (ANDROID_ARCH env) apk_suffix]];
     status := None |}.

Definition android_install_app (env : Environment) : Run :=
  let '(lines, result) := parse_args (APP_ARGS env) false "" in
  match result with
  | Exit code => {| stdout := lines; commands := []; status := Some code |}
  | Parsed forceRemoval app =>
    let run := install env forceRemoval app in
    {| stdout := lines ++ stdout run;
       commands := commands run;
       status := status run |}
  end.

(** A device and a build, for the examples. *)
Definition a_device (args : list string) : Environment :=
  {| APP_ARGS := args;
     ADB := ["adb"];
     DEVICE_SERIAL := ["-s"; "0123"];
     BUILDTYPE := "Debug";
     ANDROID_ARCH := "arm64";
     SCRIPT_DIR := "/skia/platform_tools/android/bin" |}.

(** The same environment with other arguments. *)
Definition with_args (env : Environment) (args : list string) : Environment :=
  {| APP_ARGS := args;
     ADB := ADB env;
     DEVICE_SERIAL := DEVICE_SERIAL env;
     BUILDTYPE := BUILDTYPE env;
     ANDROID_ARCH := ANDROID_ARCH env;
     SCRIPT_DIR := SCRIPT_DIR env |}.

(** Vocabulary for command lines: the words that are no options, the line
    the loop prints for each "-r", and the command lines the loop runs
    through: no "-h", no option besides "-f" and "-r", at most one word that
    is no option. *)
Definition positional (args : list string) : list string :=
  filter (λ word, is_option word = false) args.

Definition deprecated : string := "DEPRECATED: -r is now a no-op".

Definition deprecations (args : list string) : list string :=
  replicate (length (filter (λ word, word = "-r") args)) deprecated.

Definition known_option (word : string) : Prop :=
  is_option word = true → word = "-f" ∨ word = "-r".

Definition accepted (args : list string) : Prop :=
  ("-h" ∉ args) ∧ Forall known_option args
  ∧ (length (positional args) ≤ 1)%nat.

(** What the loop asks of the words left, in a state where the app is, or is
    not yet, named. *)
Definition room_for (app : string) (args : list string) : Prop :=
  if bool_decide (app = "") then (length (positional args) ≤ 1)%nat
  else positional args = [].

(** A command line without its "-r", an output without its deprecation
    lines. *)
Definition without_r (args : list string) : list string :=
  filter (λ word, word ≠ "-r") args.

Definition without_deprecations (lines : list string) : list string :=
  filter (λ line, line ≠ deprecated) lines.

Definition is_upper (c : ascii) : bool :=
  (65 <=? N_of_ascii c)%N && (N_of_ascii c <=? 90)%N.

(** * Properties *)

(** ** Assertions and request validation *)

Lemma SkASSERT_optimized site cond : SkASSERT false site cond = Done tt.
Proof. reflexivity. Qed.

Lemma SkASSERT_holds site : SkASSERT true site (Done true) = Done tt.
Proof. reflexivity. Qed.

Lemma SkASSERT_fails site : SkASSERT true site (Done false) = Halt site.
Proof. reflexivity. Qed.

Lemma nonnull_Some {A : Type} (p : ptr A) :
  nonnull p = true → ∃ a, p = Some a.
Proof. destruct p as [a|]; [eauto | discriminate]. Qed.

Section validation.
Context `{SkiaTypes}.

Lemma StencilPathArgs_validate_optimized a :
  StencilPathArgs.validate false a = Done tt.
Proof. reflexivity. Qed.

Lemma DrawPathArgs_validate_optimized a :
  DrawPathArgs.validate false a = Done tt.
Proof. reflexivity. Qed.

Lemma StencilPathArgs_validate_debug a :
  StencilPathArgs.validate true a = Done tt →
  ∃ provider target matrix path,
    StencilPathArgs.fResourceProvider a = Some provider
    ∧ StencilPathArgs.fDrawContext a = Some target
    ∧ StencilPathArgs.fViewMatrix a = Some matrix
    ∧ StencilPathArgs.fPath a = Some path
    ∧ isEmpty path = false.
Proof.
  destruct a as [provider target clip matrix path aa].
  unfold StencilPathArgs.validate; simpl.
  destruct provider, target, matrix, path as [path|]; simpl; try discriminate.
  destruct (isEmpty path) eqn:E; simpl; try discriminate.
  intros _. eauto 10.
Qed.

Lemma StencilPathArgs_validate_halts a :
  StencilPathArgs.validate true a = Done tt
  ∨ ∃ f, StencilPathArgs.validate true a = Halt (in_StencilPathArgs_validate f).
Proof.
  destruct a as [provider target clip matrix path aa].
  unfold StencilPathArgs.validate; simpl.
  destruct provider, target, matrix, path as [path|]; simpl; eauto.
  destruct (isEmpty path); simpl; eauto.
Qed.

Lemma DrawPathArgs_validate_debug a :
  DrawPathArgs.validate true a = Done tt →
  ∃ provider paint stencil target clip matrix path style,
    DrawPathArgs.fResourceProvider a = Some provider
    ∧ DrawPathArgs.fPaint a = Some paint
    ∧ DrawPathArgs.fUserStencilSettings a = Some stencil
    ∧ DrawPathArgs.fDrawContext a = Some target
    ∧ DrawPathArgs.fClip a = Some clip
    ∧ DrawPathArgs.fViewMatrix a = Some matrix
    ∧ DrawPathArgs.fPath a = Some path
    ∧ DrawPathArgs.fStyle a = Some style
    ∧ isEmpty path = false.
Proof.
  destruct a as [provider paint stencil target clip color matrix path style aa gc].
  unfold DrawPathArgs.validate; simpl.
  destruct provider, paint, stencil, target, clip, matrix, path as [path|], style;
    simpl; try discriminate.
  destruct (isEmpty path) eqn:E; simpl; try discriminate.
  intros _. eauto 20.
Qed.

Lemma DrawPathArgs_validate_halts a :
  DrawPathArgs.validate true a = Done tt
  ∨ ∃ f, DrawPathArgs.validate true a = Halt (in_DrawPathArgs_validate f).
Proof.
  destruct a as [provider paint stencil target clip color matrix path style aa gc].
  unfold DrawPathArgs.validate; simpl.
  destruct provider, paint, stencil, target, clip, matrix, path as [path|], style;
    simpl; eauto.
  destruct (isEmpty path); simpl; eauto.
Qed.

Lemma CanDrawPathArgs_validate_halts a :
  CanDrawPathArgs.validate true a = Done tt
  ∨ ∃ f, CanDrawPathArgs.validate true a = Halt (in_CanDrawPathArgs_validate f).
Proof.
  destruct a as [caps matrix path style aa us msaa].
  unfold CanDrawPathArgs.validate; simpl.
  destruct caps, matrix, path as [path|], style; simpl; eauto.
  destruct (isEmpty path); simpl; eauto.
Qed.

End validation.

(** ** The stencil-support query *)

Section stencil_support.
Context `{SkiaOps}.

Lemma getStencilSupport_optimized this path :
  getStencilSupport false this path = Done (onGetStencilSupport this path).
Proof. reflexivity. Qed.

Lemma getStencilSupport_not_inverse SK_DEBUG this path :
  isInverseFillType path = false →
  getStencilSupport SK_DEBUG this path = Done (onGetStencilSupport this path).
Proof.
  intros Hfill. unfold getStencilSupport. rewrite Hfill.
  destruct SK_DEBUG; reflexivity.
Qed.

Lemma getStencilSupport_inverse_debug this path :
  isInverseFillType path = true →
  getStencilSupport true this path = Halt in_getStencilSupport.
Proof. intros Hfill. unfold getStencilSupport. rewrite Hfill. reflexivity. Qed.

Lemma getStencilSupport_Done SK_DEBUG this path support :
  getStencilSupport SK_DEBUG this path = Done support →
  support = onGetStencilSupport this path.
Proof.
  unfold getStencilSupport.
  destruct SK_DEBUG, (isInverseFillType path); simpl; congruence.
Qed.

Lemma weaker_or_equal_kNoRestriction support :
  weaker_or_equal support kNoRestriction_StencilSupport.
Proof. destruct support; unfold weaker_or_equal; simpl; lia. Qed.

(** C6. A strategy that inherits [onGetStencilSupport] reports
    no-restriction for every non-inverse-fill path, in either build; a strategy
    that overrides it reports what its override returns, which is never more
    than the inherited level. *)
Theorem default_stencil_support_is_no_restriction
    (SK_DEBUG : bool) (this : GrPathRenderer) (path : SkPath) :
  isInverseFillType path = false →
  (override_onGetStencilSupport this = None →
     getStencilSupport SK_DEBUG this path = Done kNoRestriction_StencilSupport)
  ∧ (∀ overriding, override_onGetStencilSupport this = Some overriding →
       getStencilSupport SK_DEBUG this path = Done (overriding path)
       ∧ weaker_or_equal (overriding path) kNoRestriction_StencilSupport).
Proof.
  intros Hfill. rewrite (getStencilSupport_not_inverse _ _ _ Hfill).
  unfold onGetStencilSupport. split.
  - intros ->. reflexivity.
  - intros overriding ->. split; [reflexivity|].
    apply weaker_or_equal_kNoRestriction.
Qed.

(** C7, as amended. In a debug build a call with an inverse-fill path halts at
    the assertion of [getStencilSupport], whatever the strategy's classifier
    is, so the classifier is not consulted; a call with a non-inverse path
    never trips the assertion and returns the classifier's answer; in an
    optimized build the assertion is compiled out and every path, inverse or
    not, is handed to the classifier. *)
Theorem getStencilSupport_inverse_fill_precondition
    (this : GrPathRenderer) (path : SkPath) :
  (isInverseFillType path = true →
     ∀ other : GrPathRenderer,
       getStencilSupport true other path = Halt in_getStencilSupport)
  ∧ (isInverseFillType path = false →
       ∀ SK_DEBUG,
         getStencilSupport SK_DEBUG this path
         = Done (onGetStencilSupport this path))
  ∧ getStencilSupport false this path = Done (onGetStencilSupport this path).
Proof.
  split; [|split].
  - intros Hfill other. by apply getStencilSupport_inverse_debug.
  - intros Hfill SK_DEBUG. by apply getStencilSupport_not_inverse.
  - reflexivity.
Qed.

End stencil_support.

(** ** The draw executor's wrapper *)


Section draw.
Context `{SkiaOps}.


Lemma canDrawPath_debug_cases this canArgs :
  (∃ answer, canDrawPath true this canArgs = Done answer)
  ∨ ∃ f, canDrawPath true this canArgs = Halt (in_CanDrawPathArgs_validate f).
Proof.
  unfold canDrawPath; simpl.
  destruct (CanDrawPathArgs_validate_halts canArgs) as [-> | [f ->]];
    simpl; eauto.
Qed.

(** Once the request is valid, the debug block reads as three assertions. *)
Lemma drawPath_debug_valid this args target provider stencil dc path style :
  DrawPathArgs.validate true args = Done tt →
  DrawPathArgs.fResourceProvider args = Some provider →
  DrawPathArgs.fUserStencilSettings args = Some stencil →
  DrawPathArgs.fDrawContext args = Some dc →
  DrawPathArgs.fPath args = Some path →
  DrawPathArgs.fStyle args = Some style →
  drawPath true this args target =
    (SkASSERT true in_drawPath_canDrawPath
       (canDrawPath true this (canArgs_of args provider stencil dc));;
     (if negb (isUnused stencil) then
        SkASSERT true in_drawPath_kNoRestriction
          (support ← getStencilSupport true this path;
           Done (bool_decide (kNoRestriction_StencilSupport = support)));;
        SkASSERT true in_drawPath_isSimpleFill (Done (isSimpleFill style))
      else Done tt);;
     onDrawPath this args target).
Proof.
  intros Hvalid Hprovider Hstencil Hdc Hpath Hstyle.
  unfold drawPath, drawPath_debug_checks. simpl SkDEBUGCODE.
  rewrite Hvalid, Hprovider, Hstencil, Hdc, Hpath, Hstyle. simpl.
  destruct (canDrawPath true this _) as [[]| |]; reflexivity.
Qed.


(** C2. In an optimized build [drawPath] is the strategy's executor and
    nothing is checked. In a debug build every call is checked: a request
    that fails [validate] halts there; for one that passes, the wrapper
    derives the capability query (shader caps of the provider, the request's
    matrix, path, style and anti-alias flag, the user-stencil flag set exactly
    when the rules are in use, the multisample flag of the draw context) and
    asserts that [canDrawPath] accepts it; and when the rules are in use it
    asserts that the strategy reports no-restriction for the path and that
    the style is a simple fill. The call is given in full, by the outcome of
    each asserted expression: the executor runs when the assertions hold,
    each one that fails halts the call at its own site, and an asserted
    expression that itself halts (the query's [validate] on null shader caps,
    [getStencilSupport] on an inverse-fill path) halts the call at that
    site. *)
Theorem drawPath_preconditions_checked_in_debug_only
    (this : GrPathRenderer) (args : DrawPathArgs.t) (target : Frame) :
  drawPath false this args target = onDrawPath this args target
  ∧ (∀ site, DrawPathArgs.validate true args = Halt site →
       drawPath true this args target = Halt site)
  ∧ ∀ provider stencil dc path style,
      DrawPathArgs.validate true args = Done tt →
      DrawPathArgs.fResourceProvider args = Some provider →
      DrawPathArgs.fUserStencilSettings args = Some stencil →
      DrawPathArgs.fDrawContext args = Some dc →
      DrawPathArgs.fPath args = Some path →
      DrawPathArgs.fStyle args = Some style →
      let query :=
        {| CanDrawPathArgs.fShaderCaps := shaderCaps provider;
           CanDrawPathArgs.fViewMatrix := DrawPathArgs.fViewMatrix args;
           CanDrawPathArgs.fPath := Some path;
           CanDrawPathArgs.fStyle := Some style;
           CanDrawPathArgs.fAntiAlias := DrawPathArgs.fAntiAlias args;
           CanDrawPathArgs.fHasUserStencilSettings := negb (isUnused stencil);
           CanDrawPathArgs.fIsStencilBufferMSAA :=
             isStencilBufferMultisampled dc |} in
      drawPath true this args target
      = match canDrawPath true this query with
        | Done true =>
          if isUnused stencil then onDrawPath this args target
          else
            match getStencilSupport true this path with
            | Done support =>
              if bool_decide (kNoRestriction_StencilSupport = support) then
                if isSimpleFill style then onDrawPath this args target
                else Halt in_drawPath_isSimpleFill
              else Halt in_drawPath_kNoRestriction
            | Halt site => Halt site
            | Fault => Fault
            end
        | Done false => Halt in_drawPath_canDrawPath
        | Halt site => Halt site
        | Fault => Fault
        end
      ∧ canDrawPath true this query ≠ Fault
      ∧ getStencilSupport true this path ≠ Fault
      ∧ (canDrawPath true this query = Done true →
         (isUnused stencil = false →
            getStencilSupport true this path
            = Done kNoRestriction_StencilSupport
            ∧ isSimpleFill style = true) →
         drawPath true this args target = onDrawPath this args target)
      ∧ (canDrawPath true this query = Done false →
         drawPath true this args target = Halt in_drawPath_canDrawPath)
      ∧ (∀ site, canDrawPath true this query = Halt site →
           drawPath true this args target = Halt site)
      ∧ (shaderCaps provider = None →
         drawPath true this args target
         = Halt (in_CanDrawPathArgs_validate of_fShaderCaps))
      ∧ (canDrawPath true this query = Done true →
         isUnused stencil = false →
         ∀ support,
           getStencilSupport true this path = Done support →
           support ≠ kNoRestriction_StencilSupport →
           drawPath true this args target = Halt in_drawPath_kNoRestriction)
      ∧ (canDrawPath true this query = Done true →
         isUnused stencil = false →
         ∀ site, getStencilSupport true this path = Halt site →
           drawPath true this args target = Halt site)
      ∧ (canDrawPath true this query = Done true →
         isUnused stencil = false →
         isInverseFillType path = true →
         drawPath true this args target = Halt in_getStencilSupport)
      ∧ (canDrawPath true this query = Done true →
         isUnused stencil = false →
         getStencilSupport true this path = Done kNoRestriction_StencilSupport →
         isSimpleFill style = false →
         drawPath true this args target = Halt in_drawPath_isSimpleFill).
Proof.
  split; [reflexivity|]. split.
  { intros site Hhalt. unfold drawPath. simpl SkDEBUGCODE.
    rewrite Hhalt. reflexivity. }
  intros provider stencil dc path style Hvalid Hprovider Hstencil Hdc Hpath
    Hstyle query.
  assert (Hquery : canArgs_of args provider stencil dc = query)
    by (unfold canArgs_of, query; rewrite Hpath, Hstyle; reflexivity).
  rewrite (drawPath_debug_valid _ _ _ _ _ _ _ _
             Hvalid Hprovider Hstencil Hdc Hpath Hstyle), Hquery.
  split.
  { destruct (canDrawPath true this query) as [[]| |]; simpl; try reflexivity.
    destruct (isUnused stencil); simpl; [reflexivity|].
    destruct (getStencilSupport true this path) as [support| |]; simpl;
      try reflexivity.
    destruct support; simpl; try reflexivity.
    destruct (isSimpleFill style); reflexivity. }
  split.
  { destruct (canDrawPath_debug_cases this query) as [[answer ->] | [f ->]];
      discriminate. }
  split.
  { unfold getStencilSupport.
    destruct (isInverseFillType path); discriminate. }
  repeat split.
  - intros -> Hrules. simpl.
    destruct (isUnused stencil); simpl; [reflexivity|].
    destruct Hrules as [-> ->]; reflexivity.
  - intros ->. reflexivity.
  - intros site ->. reflexivity.
  - intros Hcaps.
    assert (canDrawPath true this query
            = Halt (in_CanDrawPathArgs_validate of_fShaderCaps)) as ->
      by (unfold canDrawPath, CanDrawPathArgs.validate, query; simpl;
          rewrite Hcaps; reflexivity).
    reflexivity.
  - intros -> -> support -> Hweaker. simpl.
    rewrite bool_decide_eq_false_2 by congruence. reflexivity.
  - intros -> -> site ->. reflexivity.
  - intros -> -> Hfill.
    rewrite (getStencilSupport_inverse_debug _ _ Hfill). reflexivity.
  - intros -> -> -> ->. reflexivity.
Qed.

End draw.

(** ** The stencil-only executor's wrapper and its default *)

Section stencil.
Context `{SkiaOps}.

Lemma stencilPath_optimized unassigned_fClip this args target :
  stencilPath false unassigned_fClip this args target
  = onStencilPath false unassigned_fClip this args target.
Proof. reflexivity. Qed.

(** Once the request is valid, the debug wrapper reads as one assertion. *)
Lemma stencilPath_debug_valid unassigned_fClip this args target path :
  StencilPathArgs.validate true args = Done tt →
  StencilPathArgs.fPath args = Some path →
  stencilPath true unassigned_fClip this args target =
    (SkASSERT true in_stencilPath_support
       (support ← getStencilSupport true this path;
        Done (negb (bool_decide (kNoSupport_StencilSupport = support))));;
     onStencilPath true unassigned_fClip this args target).
Proof.
  intros Hvalid Hpath. unfold stencilPath. simpl SkDEBUGCODE.
  rewrite Hvalid, Hpath. reflexivity.
Qed.

Lemma onStencilPath_inherited SK_DEBUG unassigned_fClip this args target :
  override_onStencilPath this = None →
  onStencilPath SK_DEBUG unassigned_fClip this args target
  = target_of
      (drawPath SK_DEBUG this (fallback_request unassigned_fClip args) target).
Proof. intros Hnone. unfold onStencilPath. rewrite Hnone. reflexivity. Qed.

(** The default body hands the unassigned [fClip] to [validate]: when the
    storage holds a null pointer, a debug build halts there, for a request
    that is in order and a path the strategy can stencil. *)
Lemma inherited_onStencilPath_null_fClip this args target :
  override_onStencilPath this = None →
  StencilPathArgs.validate true args = Done tt →
  onStencilPath true None this args target
  = Halt (in_DrawPathArgs_validate of_fClip).
Proof.
  intros Hnone Hvalid.
  rewrite (onStencilPath_inherited _ _ _ _ _ Hnone).
  destruct (StencilPathArgs_validate_debug _ Hvalid)
    as (provider & dc & matrix & path & Hp & Hd & Hm & Hpath & Hempty).
  unfold drawPath, DrawPathArgs.validate, fallback_request. simpl.
  rewrite Hp, Hd. reflexivity.
Qed.

(** C8. In a debug build a call whose path the strategy cannot stencil halts
    at the assertion of [stencilPath]. When the strategy reports any other
    level for the path, the assertion holds and the call is the strategy's
    [onStencilPath]; in an optimized build the call is always the strategy's
    [onStencilPath]. The request is one that passes [validate]. *)
Theorem stencilPath_support_precondition
    (unassigned_fClip : ptr GrClip) (this : GrPathRenderer)
    (args : StencilPathArgs.t) (target : Frame) (path : SkPath) :
  StencilPathArgs.fPath args = Some path →
  (StencilPathArgs.validate true args = Done tt →
   getStencilSupport true this path = Done kNoSupport_StencilSupport →
   stencilPath true unassigned_fClip this args target
   = Halt in_stencilPath_support)
  ∧ (∀ SK_DEBUG support,
       StencilPathArgs.validate SK_DEBUG args = Done tt →
       getStencilSupport SK_DEBUG this path = Done support →
       support ≠ kNoSupport_StencilSupport →
       stencilPath SK_DEBUG unassigned_fClip this args target
       = onStencilPath SK_DEBUG unassigned_fClip this args target)
  ∧ stencilPath false unassigned_fClip this args target
    = onStencilPath false unassigned_fClip this args target.
Proof.
  intros Hpath. split; [|split].
  - intros Hvalid Hsupport.
    rewrite (stencilPath_debug_valid _ _ _ _ _ Hvalid Hpath), Hsupport.
    reflexivity.
  - intros [] support Hvalid Hsupport Hsome; [|reflexivity].
    rewrite (stencilPath_debug_valid _ _ _ _ _ Hvalid Hpath), Hsupport.
    simpl. rewrite bool_decide_eq_false_2 by congruence. reflexivity.
  - reflexivity.
Qed.

(** C1. For a strategy that inherits [onStencilPath], the stencil-only
    executor is [drawPath] on a request synthesized from the stencil request:
    the same resource provider, draw context, view matrix and path; a
    default-constructed paint; the rule that always passes and replaces the
    stencil value with 0xffff under a full write mask; opaque white; the
    simple-fill style; anti-aliasing and gamma correction off. The [bool] of
    the draw is dropped. [stencilPath] is that draw in an optimized build, and
    in a debug build once its own assertions hold. *)
Theorem default_onStencilPath_is_drawPath
    (SK_DEBUG : bool) (unassigned_fClip : ptr GrClip) (this : GrPathRenderer)
    (args : StencilPathArgs.t) (target : Frame) :
  override_onStencilPath this = None →
  let rule :=
    UserStencil {| Ref := 0xffff; Test := kAlways; TestMask := 0xffff;
                   PassOp := kReplace; FailOp := kReplace;
                   WriteMask := 0xffff |} in
  let drawArgs :=
    {| DrawPathArgs.fResourceProvider := StencilPathArgs.fResourceProvider args;
       DrawPathArgs.fPaint := Some GrPaint_default;
       DrawPathArgs.fUserStencilSettings := Some rule;
       DrawPathArgs.fDrawContext := StencilPathArgs.fDrawContext args;
       DrawPathArgs.fClip := unassigned_fClip;
       DrawPathArgs.fColor := 0xFFFFFFFF;
       DrawPathArgs.fViewMatrix := StencilPathArgs.fViewMatrix args;
       DrawPathArgs.fPath := StencilPathArgs.fPath args;
       DrawPathArgs.fStyle := Some SimpleFill;
       DrawPathArgs.fAntiAlias := false;
       DrawPathArgs.fGammaCorrect := false |} in
  onStencilPath SK_DEBUG unassigned_fClip this args target
  = ('(_, target') ← drawPath SK_DEBUG this drawArgs target; Done target')
  ∧ stencilPath false unassigned_fClip this args target
    = ('(_, target') ← onDrawPath this drawArgs target; Done target')
  ∧ (StencilPathArgs.validate true args = Done tt →
     (∀ path, StencilPathArgs.fPath args = Some path →
        ∃ support, getStencilSupport true this path = Done support
                   ∧ support ≠ kNoSupport_StencilSupport) →
     stencilPath true unassigned_fClip this args target
     = ('(_, target') ← drawPath true this drawArgs target; Done target'))
  ∧ isUnused rule = false
  ∧ isSimpleFill SimpleFill = true
  ∧ Z.land 0xffff 0xffff ≠ 0
  ∧ (∀ shift, In shift [0; 8; 16; 24] → GrColorUnpack 0xFFFFFFFF shift = 0xFF).
Proof.
  intros Hnone rule drawArgs.
  assert (Hbody : ∀ build,
    onStencilPath build unassigned_fClip this args target
    = ('(_, target') ← drawPath build this drawArgs target; Done target')).
  { intros build. rewrite (onStencilPath_inherited _ _ _ _ _ Hnone).
    reflexivity. }
  split; [apply Hbody|]. split; [apply (Hbody false)|].
  split; [|repeat split].
  - intros Hvalid Hsupport.
    destruct (StencilPathArgs_validate_debug _ Hvalid)
      as (_ & _ & _ & path & _ & _ & _ & Hpath & _).
    destruct (Hsupport _ Hpath) as (support & Hlevel & Hsome).
    rewrite (stencilPath_debug_valid _ _ _ _ _ Hvalid Hpath), Hlevel. simpl.
    rewrite bool_decide_eq_false_2 by congruence. apply (Hbody true).
  - discriminate.
  - intros shift Hin. simpl in Hin.
    destruct Hin as [<- | [<- | [<- | [<- | []]]]]; reflexivity.
Qed.

(** C9, as amended. For a strategy that inherits [onStencilPath]: in an
    optimized build [stencilPath] runs the strategy's draw executor on the
    synthesized request whatever level the strategy reports; in a debug build
    the synthesized request has its stencil rule in use, so the assertion of
    [drawPath] compares the reported level with no-restriction, and a call
    for a path with any weaker level halts at an assertion of the header
    before the draw executor runs. When the request is otherwise in order and
    the level is stencil-only, the assertion that halts is that one. *)
Theorem default_stencil_fallback_checked_in_debug
    (unassigned_fClip : ptr GrClip) (this : GrPathRenderer)
    (args : StencilPathArgs.t) (target : Frame) :
  override_onStencilPath this = None →
  stencilPath false unassigned_fClip this args target
  = target_of (onDrawPath this (fallback_request unassigned_fClip args) target)
  ∧ (∀ path,
       StencilPathArgs.fPath args = Some path →
       onGetStencilSupport this path ≠ kNoRestriction_StencilSupport →
       ∃ site, in_wrapper site = true
               ∧ stencilPath true unassigned_fClip this args target = Halt site)
  ∧ (∀ path provider dc,
       StencilPathArgs.validate true args = Done tt →
       StencilPathArgs.fPath args = Some path →
       StencilPathArgs.fResourceProvider args = Some provider →
       StencilPathArgs.fDrawContext args = Some dc →
       nonnull unassigned_fClip = true →
       isInverseFillType path = false →
       onGetStencilSupport this path = kStencilOnly_StencilSupport →
       canDrawPath true this
         (canArgs_of (fallback_request unassigned_fClip args)
            provider kIncrementStencil dc) = Done true →
       stencilPath true unassigned_fClip this args target
       = Halt in_drawPath_kNoRestriction).
Proof.
  intros Hnone. split; [|split].
  - rewrite stencilPath_optimized, (onStencilPath_inherited _ _ _ _ _ Hnone).
    reflexivity.
  - intros path Hpath Hweaker.
    destruct (StencilPathArgs_validate_halts args) as [Hvalid | [f Hhalt]].
    2: { exists (in_StencilPathArgs_validate f). split; [reflexivity|].
         unfold stencilPath. simpl SkDEBUGCODE. rewrite Hhalt. reflexivity. }
    rewrite (stencilPath_debug_valid _ _ _ _ _ Hvalid Hpath).
    unfold getStencilSupport.
    destruct (isInverseFillType path) eqn:Hfill; simpl.
    { exists in_getStencilSupport. split; reflexivity. }
    destruct (onGetStencilSupport this path) eqn:Hlevel; simpl;
      [ exists in_stencilPath_support; split; reflexivity | | congruence ].
    rewrite (onStencilPath_inherited _ _ _ _ _ Hnone).
    set (request := fallback_request unassigned_fClip args).
    destruct (DrawPathArgs_validate_halts request) as [Hreq | [f Hhalt]].
    2: { exists (in_DrawPathArgs_validate f). split; [reflexivity|].
         unfold drawPath. simpl SkDEBUGCODE. rewrite Hhalt. reflexivity. }
    destruct (DrawPathArgs_validate_debug _ Hreq)
      as (provider & paint & stencil & dc & clip & matrix & path' & style
          & Hprovider & _ & Hstencil & Hdc & _ & _ & Hpath' & Hstyle & _).
    rewrite (drawPath_debug_valid _ _ _ _ _ _ _ _
               Hreq Hprovider Hstencil Hdc Hpath' Hstyle).
    assert (path' = path) as ->
      by (unfold request in Hpath'; simpl in Hpath'; congruence).
    assert (stencil = kIncrementStencil) as ->
      by (unfold request in Hstencil; simpl in Hstencil; congruence).
    destruct (canDrawPath_debug_cases this
                (canArgs_of request provider kIncrementStencil dc))
      as [[[] ->] | [f ->]]; simpl.
    + rewrite (getStencilSupport_not_inverse _ _ _ Hfill), Hlevel. simpl.
      exists in_drawPath_kNoRestriction. split; reflexivity.
    + exists in_drawPath_canDrawPath. split; reflexivity.
    + exists (in_CanDrawPathArgs_validate f). split; reflexivity.
  - intros path provider dc Hvalid Hpath Hprovider Hdc Hclip Hfill Hlevel Hcan.
    rewrite (stencilPath_debug_valid _ _ _ _ _ Hvalid Hpath).
    rewrite (getStencilSupport_not_inverse _ _ _ Hfill), Hlevel. simpl.
    rewrite (onStencilPath_inherited _ _ _ _ _ Hnone).
    destruct (StencilPathArgs_validate_debug _ Hvalid)
      as (provider' & dc' & matrix & path' & Hp & Hd & Hm & Hpath' & Hempty).
    destruct (nonnull_Some _ Hclip) as [clip Hsome].
    assert (Hreq : DrawPathArgs.validate true
                     (fallback_request unassigned_fClip args) = Done tt).
    { unfold DrawPathArgs.validate, fallback_request. simpl.
      rewrite Hp, Hd, Hm, Hpath', Hsome. simpl. rewrite Hempty. reflexivity. }
    rewrite (drawPath_debug_valid _ _ _ provider kIncrementStencil dc path
               SimpleFill Hreq Hprovider eq_refl Hdc Hpath eq_refl).
    rewrite Hcan. simpl.
    rewrite (getStencilSupport_not_inverse _ _ _ Hfill), Hlevel. reflexivity.
Qed.

End stencil.

(** ** The hairline heuristic *)

Section hairline.
Context `{SkiaOps}.

Lemma IsStrokeHairlineOrEquivalent_path_effect style matrix outCoverage mem :
  nonnull (pathEffect style) = true →
  IsStrokeHairlineOrEquivalent style matrix outCoverage mem = (false, mem).
Proof.
  intros Heffect. unfold IsStrokeHairlineOrEquivalent.
  rewrite Heffect. reflexivity.
Qed.

Lemma IsStrokeHairlineOrEquivalent_hairline style matrix outCoverage mem :
  pathEffect style = None →
  isHairlineStyle (strokeRec style) = true →
  IsStrokeHairlineOrEquivalent style matrix outCoverage mem
  = (true, match outCoverage with
           | Some cell => <[cell := SK_Scalar1]> mem
           | None => mem
           end).
Proof.
  intros Heffect Hhair. unfold IsStrokeHairlineOrEquivalent.
  rewrite Heffect, Hhair. reflexivity.
Qed.

Lemma IsStrokeHairlineOrEquivalent_stroke style matrix outCoverage mem :
  pathEffect style = None →
  getStyle (strokeRec style) = kStroke_Style →
  IsStrokeHairlineOrEquivalent style matrix outCoverage mem
  = SkDrawTreatAAStrokeAsHairline
      (getWidth (strokeRec style)) matrix outCoverage mem.
Proof.
  intros Heffect Hstroke. unfold IsStrokeHairlineOrEquivalent, isHairlineStyle.
  rewrite Heffect, Hstroke. reflexivity.
Qed.

Lemma IsStrokeHairlineOrEquivalent_other style matrix outCoverage mem :
  pathEffect style = None →
  isHairlineStyle (strokeRec style) = false →
  getStyle (strokeRec style) ≠ kStroke_Style →
  IsStrokeHairlineOrEquivalent style matrix outCoverage mem = (false, mem).
Proof.
  intros Heffect Hhair Hstroke. unfold IsStrokeHairlineOrEquivalent.
  rewrite Heffect, Hhair. simpl.
  rewrite bool_decide_eq_false_2 by assumption. reflexivity.
Qed.

(** C4. With a path effect the answer is false under every transform, and
    memory is untouched. With no path effect and a hairline-styled stroke the
    answer is true and the coverage cell receives [SK_Scalar1]. Otherwise the
    answer is true exactly when the stroke style is the plain stroke and
    [SkDrawTreatAAStrokeAsHairline], applied to the stroke width, the matrix
    and the coverage pointer, accepts; the coverage is then what that test
    wrote. *)
Theorem IsStrokeHairlineOrEquivalent_cases
    (style : GrStyle) (matrix : SkMatrix) (outCoverage : ptr loc)
    (mem : gmap loc SkScalar) :
  (nonnull (pathEffect style) = true →
     IsStrokeHairlineOrEquivalent style matrix outCoverage mem = (false, mem))
  ∧ (pathEffect style = None →
     isHairlineStyle (strokeRec style) = true →
     (IsStrokeHairlineOrEquivalent style matrix outCoverage mem).1 = true
     ∧ ∀ cell, outCoverage = Some cell →
         (IsStrokeHairlineOrEquivalent style matrix outCoverage mem).2
         = <[cell := SK_Scalar1]> mem
         ∧ (IsStrokeHairlineOrEquivalent style matrix outCoverage mem).2
             !! cell = Some SK_Scalar1)
  ∧ (pathEffect style = None →
     isHairlineStyle (strokeRec style) = false →
     let test :=
       SkDrawTreatAAStrokeAsHairline
         (getWidth (strokeRec style)) matrix outCoverage mem in
     ((IsStrokeHairlineOrEquivalent style matrix outCoverage mem).1 = true
      ↔ getStyle (strokeRec style) = kStroke_Style ∧ test.1 = true)
     ∧ (getStyle (strokeRec style) = kStroke_Style →
        IsStrokeHairlineOrEquivalent style matrix outCoverage mem = test)
     ∧ (getStyle (strokeRec style) ≠ kStroke_Style →
        IsStrokeHairlineOrEquivalent style matrix outCoverage mem
        = (false, mem))).
Proof.
  split; [|split].
  - apply IsStrokeHairlineOrEquivalent_path_effect.
  - intros Heffect Hhair.
    rewrite (IsStrokeHairlineOrEquivalent_hairline _ _ _ _ Heffect Hhair).
    split; [reflexivity|]. intros cell ->. simpl.
    split; [reflexivity|]. apply lookup_insert_eq.
  - intros Heffect Hhair test. split; [|split].
    + destruct (decide (getStyle (strokeRec style) = kStroke_Style))
        as [Hstroke | Hother].
      * rewrite (IsStrokeHairlineOrEquivalent_stroke _ _ _ _ Heffect Hstroke).
        fold test. tauto.
      * rewrite (IsStrokeHairlineOrEquivalent_other _ _ _ _
                   Heffect Hhair Hother). simpl.
        split; [discriminate | tauto].
    + apply IsStrokeHairlineOrEquivalent_stroke; assumption.
    + apply IsStrokeHairlineOrEquivalent_other; assumption.
Qed.

(** A null coverage pointer. The header's one write is guarded, and with a
    null pointer every branch it decides itself returns the same answer as
    with a cell and leaves memory as it was. For a plain stroke the pointer is
    handed on, unchanged, to [SkDrawTreatAAStrokeAsHairline], whose body is
    not among the sources: what the helper does there is what that test
    does, and the two premises below are about that test alone. *)
Lemma IsStrokeHairlineOrEquivalent_null_coverage
    (style : GrStyle) (matrix : SkMatrix) (cell : loc)
    (mem : gmap loc SkScalar) :
  (∀ width m c memory,
     (SkDrawTreatAAStrokeAsHairline width m None memory).1
     = (SkDrawTreatAAStrokeAsHairline width m (Some c) memory).1) →
  (∀ width m memory,
     (SkDrawTreatAAStrokeAsHairline width m None memory).2 = memory) →
  ((IsStrokeHairlineOrEquivalent style matrix None mem).1
   = (IsStrokeHairlineOrEquivalent style matrix (Some cell) mem).1
   ∧ (IsStrokeHairlineOrEquivalent style matrix None mem).2 = mem)
  ∧ IsStrokeHairlineOrEquivalent style matrix None mem
    = (if nonnull (pathEffect style) then (false, mem)
       else if isHairlineStyle (strokeRec style) then (true, mem)
       else if bool_decide (getStyle (strokeRec style) = kStroke_Style) then
         SkDrawTreatAAStrokeAsHairline
           (getWidth (strokeRec style)) matrix None mem
       else (false, mem)).
Proof.
  intros Hanswer Hwrite. split; [|reflexivity].
  unfold IsStrokeHairlineOrEquivalent.
  destruct (nonnull (pathEffect style)); [split; reflexivity|].
  destruct (isHairlineStyle (strokeRec style)); [split; reflexivity|].
  destruct (bool_decide (getStyle (strokeRec style) = kStroke_Style));
    [|split; reflexivity].
  split; [apply Hanswer | apply Hwrite].
Qed.

End hairline.

(** ** Device bounds *)

Section bounds.
Context `{SkiaOps}.

(** C5. For an inverse-fill path the bounds are the rectangle from the origin
    to (devW, devH), the same for every geometry and every transform; for a
    non-inverse path they are the path's bounds mapped by the matrix, the same
    for every device size. *)
Theorem GetPathDevBounds_cases
    (path : SkPath) (devW devH : Z) (matrix : SkMatrix) :
  (isInverseFillType path = true →
     GetPathDevBounds path devW devH matrix
     = {| fLeft := SkIntToScalar 0; fTop := SkIntToScalar 0;
          fRight := SkIntToScalar devW; fBottom := SkIntToScalar devH |}
     ∧ ∀ path' matrix',
         isInverseFillType path' = true →
         GetPathDevBounds path' devW devH matrix'
         = GetPathDevBounds path devW devH matrix)
  ∧ (isInverseFillType path = false →
     GetPathDevBounds path devW devH matrix = mapRect matrix (getBounds path)
     ∧ ∀ devW' devH',
         GetPathDevBounds path devW' devH' matrix
         = GetPathDevBounds path devW devH matrix).
Proof.
  unfold GetPathDevBounds. split; intros ->.
  - split; [reflexivity|]. intros path' matrix' ->. reflexivity.
  - split; [reflexivity|]. reflexivity.
Qed.

End bounds.

(** ** The properties at work on the fixtures *)

Section examples.
#[local] Existing Instance fixture_types.
#[local] Existing Instance fixture_ops.

(** *** Runs of the wrappers *)

Example drawPath_refuser_debug :
  drawPath true refuser (draw_request kUnused square SimpleFill) []
  = Halt in_drawPath_canDrawPath.
Proof. reflexivity. Qed.

Example drawPath_refuser_optimized :
  drawPath false refuser (draw_request kUnused square SimpleFill) []
  = Done (true, [0xFF102030]).
Proof. reflexivity. Qed.

Example drawPath_stroke_with_rules_debug :
  drawPath true recorder (draw_request kIncrementStencil square thin_stroke) []
  = Halt in_drawPath_isSimpleFill.
Proof. reflexivity. Qed.

Example drawPath_stroke_without_rules_debug :
  drawPath true recorder (draw_request kUnused square thin_stroke) []
  = Done (true, [0xFF102030]).
Proof. reflexivity. Qed.

Example drawPath_inverse_with_rules_debug :
  drawPath true recorder
    (draw_request kIncrementStencil inverse_square SimpleFill) []
  = Halt in_getStencilSupport.
Proof. reflexivity. Qed.

Example stencilPath_null_fClip_debug :
  stencilPath true null_clip recorder (stencil_request square) []
  = Halt (in_DrawPathArgs_validate of_fClip).
Proof. reflexivity. Qed.

Example stencilPath_no_stencil_optimized :
  stencilPath false stale_clip no_stencil (stencil_request square) []
  = Done [0xFFFFFFFF].
Proof. reflexivity. Qed.

Example dashed_is_no_hairline :
  IsStrokeHairlineOrEquivalent dashed 1 (Some 7%N) ∅ = (false, ∅).
Proof. reflexivity. Qed.

Example thin_stroke_coverage :
  IsStrokeHairlineOrEquivalent thin_stroke 1 (Some 7%N) ∅
  = (true, {[ 7%N := 1 ]}).
Proof. reflexivity. Qed.

Example thick_stroke_is_no_hairline :
  IsStrokeHairlineOrEquivalent thick_stroke 1 (Some 7%N) ∅ = (false, ∅).
Proof. reflexivity. Qed.

Example SimpleFill_is_no_hairline :
  IsStrokeHairlineOrEquivalent SimpleFill 1 (Some 7%N) ∅ = (false, ∅).
Proof. reflexivity. Qed.

(** *** The properties, instantiated *)

(** The synthesized request reaches the draw executor of [recorder], which
    records opaque white. *)
Lemma default_onStencilPath_is_drawPath_recorder :
  override_onStencilPath recorder = None
  ∧ stencilPath true stale_clip recorder (stencil_request square) []
    = Done [0xFFFFFFFF]
  ∧ stencilPath false null_clip recorder (stencil_request square) []
    = Done [0xFFFFFFFF].
Proof.
  destruct (default_onStencilPath_is_drawPath true stale_clip recorder
              (stencil_request square) [] eq_refl)
    as (_ & _ & Hdebug & _).
  destruct (default_onStencilPath_is_drawPath false null_clip recorder
              (stencil_request square) [] eq_refl)
    as (_ & Hoptimized & _).
  split; [reflexivity|]. split.
  - rewrite Hdebug; [reflexivity | reflexivity |].
    intros path [= <-]. exists kNoRestriction_StencilSupport.
    split; [reflexivity | discriminate].
  - rewrite Hoptimized. reflexivity.
Defined.

(** Debug draws with a stencil rule in use: on a non-inverse path [recorder]
    passes the three assertions and draws; on an inverse-fill path the call
    halts inside [getStencilSupport]. *)
Lemma drawPath_preconditions_checked_recorder :
  DrawPathArgs.validate true
    (draw_request kIncrementStencil square SimpleFill) = Done tt
  ∧ drawPath true recorder
      (draw_request kIncrementStencil square SimpleFill) []
    = Done (true, [0xFF102030])
  ∧ DrawPathArgs.validate true
      (draw_request kIncrementStencil inverse_square SimpleFill) = Done tt
  ∧ drawPath true recorder
      (draw_request kIncrementStencil inverse_square SimpleFill) []
    = Halt in_getStencilSupport.
Proof.
  split; [reflexivity|].
  destruct (drawPath_preconditions_checked_in_debug_only recorder
              (draw_request kIncrementStencil square SimpleFill) [])
    as (_ & _ & Hdebug).
  destruct (Hdebug the_provider kIncrementStencil single_sampled square
              SimpleFill eq_refl eq_refl eq_refl eq_refl eq_refl eq_refl)
    as (_ & _ & _ & Hpass & _).
  destruct (drawPath_preconditions_checked_in_debug_only recorder
              (draw_request kIncrementStencil inverse_square SimpleFill) [])
    as (_ & _ & Hinverse).
  destruct (Hinverse the_provider kIncrementStencil single_sampled
              inverse_square SimpleFill
              eq_refl eq_refl eq_refl eq_refl eq_refl eq_refl)
    as (_ & _ & _ & _ & _ & _ & _ & _ & _ & Hhalt & _).
  split.
  - rewrite Hpass; [reflexivity | reflexivity |].
    intros _. split; reflexivity.
  - split; [reflexivity|]. exact (Hhalt eq_refl eq_refl eq_refl).
Defined.

(** A hairline style: true, and the cell receives full coverage. *)
Lemma IsStrokeHairlineOrEquivalent_cases_hairline :
  pathEffect hairline = None
  ∧ isHairlineStyle (strokeRec hairline) = true
  ∧ (IsStrokeHairlineOrEquivalent hairline 3 (Some 7%N) ∅).1 = true
  ∧ (IsStrokeHairlineOrEquivalent hairline 3 (Some 7%N) ∅).2 !! 7%N = Some 1.
Proof.
  destruct (IsStrokeHairlineOrEquivalent_cases hairline 3 (Some 7%N) ∅)
    as (_ & Hhair & _).
  destruct (Hhair eq_refl eq_refl) as [Hanswer Hcell].
  destruct (Hcell 7%N eq_refl) as [_ Hread].
  repeat split; assumption.
Defined.

(** An inverse fill has the device rectangle as bounds, whatever its
    geometry; the bounds of a non-inverse path may leave the device. *)
Lemma GetPathDevBounds_cases_fixture :
  isInverseFillType inverse_dot = true
  ∧ GetPathDevBounds inverse_dot 16 12 2
    = {| fLeft := 0; fTop := 0; fRight := 16; fBottom := 12 |}
  ∧ GetPathDevBounds inverse_square 16 12 5
    = GetPathDevBounds inverse_dot 16 12 2
  ∧ isInverseFillType square = false
  ∧ GetPathDevBounds square 16 12 2
    = {| fLeft := 0; fTop := 0; fRight := 20; fBottom := 20 |}.
Proof.
  destruct (GetPathDevBounds_cases inverse_dot 16 12 2) as [Hinverse _].
  destruct (Hinverse eq_refl) as [Hdevice Hsame].
  destruct (GetPathDevBounds_cases square 16 12 2) as [_ Hplain].
  destruct (Hplain eq_refl) as [Hmapped _].
  split; [reflexivity|]. split; [exact Hdevice|].
  split; [exact (Hsame inverse_square 5 eq_refl)|].
  split; [reflexivity|]. rewrite Hmapped. reflexivity.
Defined.

(** [recorder] inherits the classifier; [stencil_only_overriding] lowers the
    level. *)
Lemma default_stencil_support_recorder :
  isInverseFillType square = false
  ∧ getStencilSupport true recorder square = Done kNoRestriction_StencilSupport
  ∧ getStencilSupport true stencil_only_overriding square
    = Done kStencilOnly_StencilSupport.
Proof.
  destruct (default_stencil_support_is_no_restriction true recorder square
              eq_refl) as [Hinherited _].
  destruct (default_stencil_support_is_no_restriction true
              stencil_only_overriding square eq_refl) as [_ Hoverridden].
  split; [reflexivity|]. split; [exact (Hinherited eq_refl)|].
  exact (proj1 (Hoverridden _ eq_refl)).
Defined.

(** A debug build halts on an inverse fill before [strict] is asked. *)
Lemma getStencilSupport_inverse_fill_strict :
  isInverseFillType inverse_square = true
  ∧ getStencilSupport true strict inverse_square = Halt in_getStencilSupport
  ∧ getStencilSupport true strict square = Done kNoRestriction_StencilSupport.
Proof.
  destruct (getStencilSupport_inverse_fill_precondition strict inverse_square)
    as (Hhalt & _ & _).
  destruct (getStencilSupport_inverse_fill_precondition strict square)
    as (_ & Hanswer & _).
  split; [reflexivity|]. split; [exact (Hhalt eq_refl strict)|].
  exact (Hanswer eq_refl true).
Defined.

(** C7, as stated, fails in an optimized build: the answer for an inverse-fill
    path is the classifier's. Two strategies whose classifiers agree on every
    non-inverse path answer differently for [inverse_square]. *)
Lemma optimized_getStencilSupport_asks_classifier_on_inverse_fill :
  isInverseFillType inverse_square = true
  ∧ getStencilSupport false strict inverse_square
    = Done kNoSupport_StencilSupport
  ∧ getStencilSupport false recorder inverse_square
    = Done kNoRestriction_StencilSupport
  ∧ (∀ path, isInverseFillType path = false →
       onGetStencilSupport strict path = onGetStencilSupport recorder path).
Proof.
  repeat split. intros path Hfill.
  unfold onGetStencilSupport. simpl. rewrite Hfill. reflexivity.
Qed.

(** A strategy that cannot stencil halts the debug wrapper; one that reports
    stencil-only and overrides the executor runs its override. *)
Lemma stencilPath_support_precondition_fixture :
  StencilPathArgs.fPath (stencil_request square) = Some square
  ∧ stencilPath true stale_clip no_stencil (stencil_request square) []
    = Halt in_stencilPath_support
  ∧ stencilPath true stale_clip stencil_only_overriding
      (stencil_request square) [] = Done [-1].
Proof.
  destruct (stencilPath_support_precondition stale_clip no_stencil
              (stencil_request square) [] square eq_refl) as (Hhalt & _).
  destruct (stencilPath_support_precondition stale_clip stencil_only_overriding
              (stencil_request square) [] square eq_refl) as (_ & Hruns & _).
  split; [reflexivity|]. split; [exact (Hhalt eq_refl eq_refl)|].
  rewrite (Hruns true kStencilOnly_StencilSupport eq_refl eq_refl);
    [reflexivity | discriminate].
Defined.

(** C9, as stated, fails in a debug build: a strategy that reports
    stencil-only and inherits [onStencilPath] is stopped by the assertion of
    [drawPath], on a request that is otherwise in order. *)
Lemma debug_build_checks_inherited_stencil_fallback :
  override_onStencilPath stencil_only_inheriting = None
  ∧ getStencilSupport true stencil_only_inheriting square
    = Done kStencilOnly_StencilSupport
  ∧ StencilPathArgs.validate true (stencil_request square) = Done tt
  ∧ stencilPath true stale_clip stencil_only_inheriting
      (stencil_request square) [] = Halt in_drawPath_kNoRestriction.
Proof. repeat split. Qed.

(** The same call in both builds. *)
Lemma default_stencil_fallback_stencil_only_inheriting :
  override_onStencilPath stencil_only_inheriting = None
  ∧ stencilPath false stale_clip stencil_only_inheriting
      (stencil_request square) [] = Done [0xFFFFFFFF]
  ∧ stencilPath true stale_clip stencil_only_inheriting
      (stencil_request square) [] = Halt in_drawPath_kNoRestriction.
Proof.
  destruct (default_stencil_fallback_checked_in_debug stale_clip
              stencil_only_inheriting (stencil_request square) [] eq_refl)
    as (Hoptimized & _ & Hdebug).
  split; [reflexivity|]. split.
  - rewrite Hoptimized. reflexivity.
  - exact (Hdebug square the_provider single_sampled eq_refl eq_refl eq_refl eq_refl eq_refl
             eq_refl eq_refl eq_refl).
Defined.

(** With the thin-stroke test of the fixture, which honours a null pointer,
    the helper honours it too. *)
Lemma IsStrokeHairlineOrEquivalent_null_coverage_thin_stroke :
  (IsStrokeHairlineOrEquivalent thin_stroke 1 None ∅).1 = true
  ∧ (IsStrokeHairlineOrEquivalent thin_stroke 1 (Some 7%N) ∅).1 = true
  ∧ (IsStrokeHairlineOrEquivalent thin_stroke 1 None ∅).2 = ∅
  ∧ (IsStrokeHairlineOrEquivalent thick_stroke 1 None ∅).1 = false.
Proof.
  assert (Hanswer : ∀ (width m : Z) (c : loc) (memory : gmap loc Z),
    (fixture_thin_stroke width m None memory).1
    = (fixture_thin_stroke width m (Some c) memory).1).
  { intros width m c memory. unfold fixture_thin_stroke.
    destruct ((0 <? width * m) && (width * m <=? 1)); reflexivity. }
  assert (Hwrite : ∀ (width m : Z) (memory : gmap loc Z),
    (fixture_thin_stroke width m None memory).2 = memory).
  { intros width m memory. unfold fixture_thin_stroke.
    destruct ((0 <? width * m) && (width * m <=? 1)); reflexivity. }
  destruct (@IsStrokeHairlineOrEquivalent_null_coverage
              fixture_types fixture_ops thin_stroke 1 7%N ∅ Hanswer Hwrite)
    as [[Hsame Hmem] _].
  split; [reflexivity|]. split; [rewrite <- Hsame; reflexivity|].
  split; [exact Hmem | reflexivity].
Defined.

End examples.

(** * android_install_app *)

Example install_viewer_forced :
  android_install_app (a_device ["-f"; "Viewer"])
  = {| stdout :=
         [ "Forcing removal of previously installed packages";
           "Installing viewer from viewer/build/outputs/apk/viewer-arm64-debug.apk" ];
       commands :=
         [ ["adb"; "-s"; "0123"; "uninstall"; "com.skia"];
           ["adb"; "-s"; "0123"; "install"; "-r";
            "/skia/platform_tools/android/bin/../apps/viewer/build/outputs/apk/viewer-arm64-debug.apk"] ];
       status := None |}.
Proof. reflexivity. Qed.

Example install_nothing_named :
  android_install_app (a_device [])
  = {| stdout :=
         [ "Defaulting to installing SampleApp.";
           "Installing sample_app from sample_app/build/outputs/apk/sample_app-arm64-debug.apk" ];
       commands :=
         [ ["adb"; "-s"; "0123"; "install"; "-r";
            "/skia/platform_tools/android/bin/../apps/sample_app/build/outputs/apk/sample_app-arm64-debug.apk"] ];
       status := None |}.
Proof. reflexivity. Qed.

Example install_two_apps :
  android_install_app (a_device ["Viewer"; "-f"; "SampleApp"])
  = {| stdout := ["ERROR: app already defined Viewer"];
       commands := [];
       status := Some 1 |}.
Proof. reflexivity. Qed.

Example install_unknown_option :
  android_install_app (a_device ["Viewer"; "--fast"; "-h"])
  = {| stdout := "ERROR: unrecognized option --fast" :: print_usage;
       commands := [];
       status := Some 1 |}.
Proof. reflexivity. Qed.

(** * Further properties of the wrappers *)

Section validation_accepts.
Context `{SkiaTypes}.

(** X1. In a debug build [CanDrawPathArgs::validate] passes exactly when the
    shader caps, the matrix and the style are non-null and the path is
    non-null and not empty; otherwise it halts at one of its own assertions.
    The dereference in its last assertion is never reached with a null path.
    In an optimized build it checks nothing. *)
Theorem CanDrawPathArgs_validate_accepts (a : CanDrawPathArgs.t) :
  (CanDrawPathArgs.validate true a = Done tt
   ↔ nonnull (CanDrawPathArgs.fShaderCaps a) = true
     ∧ nonnull (CanDrawPathArgs.fViewMatrix a) = true
     ∧ nonnull (CanDrawPathArgs.fStyle a) = true
     ∧ ∃ path, CanDrawPathArgs.fPath a = Some path ∧ isEmpty path = false)
  ∧ (CanDrawPathArgs.validate true a = Done tt
     ∨ ∃ f, CanDrawPathArgs.validate true a
            = Halt (in_CanDrawPathArgs_validate f))
  ∧ CanDrawPathArgs.validate false a = Done tt.
Proof.
  split; [|split; [apply CanDrawPathArgs_validate_halts | reflexivity]].
  destruct a as [caps matrix path style aa us msaa].
  unfold CanDrawPathArgs.validate; simpl. split.
  - destruct caps, matrix, path as [path|], style; simpl; try discriminate.
    destruct (isEmpty path) eqn:Hempty; simpl; try discriminate.
    intros _. repeat split. by exists path.
  - intros (Hcaps & Hmatrix & Hstyle & path' & -> & Hempty).
    destruct caps, matrix, style; try discriminate. simpl.
    rewrite Hempty. reflexivity.
Qed.

(** X2. In a debug build [DrawPathArgs::validate] passes exactly when the
    resource provider, the paint, the stencil settings, the draw context, the
    clip, the matrix and the style are non-null and the path is non-null and
    not empty; otherwise it halts at one of its own assertions. In an
    optimized build it checks nothing. *)
Theorem DrawPathArgs_validate_accepts (a : DrawPathArgs.t) :
  (DrawPathArgs.validate true a = Done tt
   ↔ nonnull (DrawPathArgs.fResourceProvider a) = true
     ∧ nonnull (DrawPathArgs.fPaint a) = true
     ∧ nonnull (DrawPathArgs.fUserStencilSettings a) = true
     ∧ nonnull (DrawPathArgs.fDrawContext a) = true
     ∧ nonnull (DrawPathArgs.fClip a) = true
     ∧ nonnull (DrawPathArgs.fViewMatrix a) = true
     ∧ nonnull (DrawPathArgs.fStyle a) = true
     ∧ ∃ path, DrawPathArgs.fPath a = Some path ∧ isEmpty path = false)
  ∧ (DrawPathArgs.validate true a = Done tt
     ∨ ∃ f, DrawPathArgs.validate true a = Halt (in_DrawPathArgs_validate f))
  ∧ DrawPathArgs.validate false a = Done tt.
Proof.
  split; [|split; [apply DrawPathArgs_validate_halts | reflexivity]].
  destruct a
    as [provider paint stencil target clip color matrix path style aa gc].
  unfold DrawPathArgs.validate; simpl. split.
  - destruct provider, paint, stencil, target, clip, matrix, path as [path|],
      style; simpl; try discriminate.
    destruct (isEmpty path) eqn:Hempty; simpl; try discriminate.
    intros _. repeat split. by exists path.
  - intros (Hprovider & Hpaint & Hstencil & Htarget & Hclip & Hmatrix & Hstyle
            & path' & -> & Hempty).
    destruct provider, paint, stencil, target, clip, matrix, style;
      try discriminate. simpl.
    rewrite Hempty. reflexivity.
Qed.

(** X3. In a debug build [StencilPathArgs::validate] passes exactly when the
    resource provider, the draw context and the matrix are non-null and the
    path is non-null and not empty. The clip is not looked at: a request
    passes with a null [fClip] as with any other. *)
Theorem StencilPathArgs_validate_accepts (a : StencilPathArgs.t) :
  (StencilPathArgs.validate true a = Done tt
   ↔ nonnull (StencilPathArgs.fResourceProvider a) = true
     ∧ nonnull (StencilPathArgs.fDrawContext a) = true
     ∧ nonnull (StencilPathArgs.fViewMatrix a) = true
     ∧ ∃ path, StencilPathArgs.fPath a = Some path ∧ isEmpty path = false)
  ∧ (∀ clip,
       StencilPathArgs.validate true
         {| StencilPathArgs.fResourceProvider :=
              StencilPathArgs.fResourceProvider a;
            StencilPathArgs.fDrawContext := StencilPathArgs.fDrawContext a;
            StencilPathArgs.fClip := clip;
            StencilPathArgs.fViewMatrix := StencilPathArgs.fViewMatrix a;
            StencilPathArgs.fPath := StencilPathArgs.fPath a;
            StencilPathArgs.fIsAA := StencilPathArgs.fIsAA a |}
       = StencilPathArgs.validate true a)
  ∧ (StencilPathArgs.validate true a = Done tt
     ∨ ∃ f, StencilPathArgs.validate true a
            = Halt (in_StencilPathArgs_validate f))
  ∧ StencilPathArgs.validate false a = Done tt.
Proof.
  split; [|split; [reflexivity|]];
    [|split; [apply StencilPathArgs_validate_halts | reflexivity]].
  destruct a as [provider target clip matrix path aa].
  unfold StencilPathArgs.validate; simpl. split.
  - destruct provider, target, matrix, path as [path|]; simpl;
      try discriminate.
    destruct (isEmpty path) eqn:Hempty; simpl; try discriminate.
    intros _. repeat split. by exists path.
  - intros (Hprovider & Htarget & Hmatrix & path' & -> & Hempty).
    destruct provider, target, matrix; try discriminate. simpl.
    rewrite Hempty. reflexivity.
Qed.

End validation_accepts.

Section builds.
Context `{SkiaOps}.

(** X4. [canDrawPath] is the strategy's [onCanDrawPath] in an optimized
    build; in a debug build it is the same answer when the query passes
    [validate], and a halt at an assertion of [validate] otherwise. *)
Theorem canDrawPath_cases (this : GrPathRenderer) (args : CanDrawPathArgs.t) :
  canDrawPath false this args = Done (onCanDrawPath this args)
  ∧ (CanDrawPathArgs.validate true args = Done tt →
     canDrawPath true this args = Done (onCanDrawPath this args))
  ∧ (CanDrawPathArgs.validate true args ≠ Done tt →
     ∃ f, canDrawPath true this args = Halt (in_CanDrawPathArgs_validate f))
  ∧ (∀ answer, canDrawPath true this args = Done answer →
       canDrawPath false this args = Done answer).
Proof.
  unfold canDrawPath. simpl. repeat split.
  - intros ->. reflexivity.
  - intros Hinvalid.
    destruct (CanDrawPathArgs_validate_halts args) as [Hvalid | [f Hhalt]];
      [contradiction|].
    exists f. rewrite Hhalt. reflexivity.
  - destruct (CanDrawPathArgs_validate_halts args) as [-> | [f ->]];
      simpl; congruence.
Qed.





End builds.

Section inherited_stencil.
Context `{SkiaOps}.

(** X7. The inherited [onStencilPath] never assigns [fClip] of the request
    it builds, and a debug [drawPath] asserts that member: when the storage
    holds a null pointer, a debug [stencilPath] for a stencil request in
    order and a path the strategy can stencil halts at [SkASSERT(fClip)],
    whatever clip the stencil request carries. *)
Theorem inherited_stencilPath_null_fClip_halts
    (this : GrPathRenderer) (args : StencilPathArgs.t) (target : Frame)
    (path : SkPath) :
  override_onStencilPath this = None →
  StencilPathArgs.validate true args = Done tt →
  StencilPathArgs.fPath args = Some path →
  isInverseFillType path = false →
  onGetStencilSupport this path ≠ kNoSupport_StencilSupport →
  stencilPath true None this args target
  = Halt (in_DrawPathArgs_validate of_fClip).
Proof.
  intros Hnone Hvalid Hpath Hfill Hlevel.
  rewrite (stencilPath_debug_valid _ _ _ _ _ Hvalid Hpath).
  rewrite (getStencilSupport_not_inverse _ _ _ Hfill). simpl.
  rewrite bool_decide_eq_false_2 by congruence. simpl.
  by apply inherited_onStencilPath_null_fClip.
Qed.

(** X8. When a debug [stencilPath] of an inheriting strategy reaches the draw
    executor: for a stencil request in order, a non-inverse path for which the
    strategy reports no-restriction, a non-null value in the unassigned
    [fClip] and non-null shader caps, the call runs the executor on the
    synthesized request exactly when the strategy's [onCanDrawPath] accepts
    the query for a simple fill without anti-aliasing and with user stencil
    settings; when it refuses, the call halts at the assertion on
    [canDrawPath]. *)
Theorem inherited_stencilPath_needs_canDrawPath
    (unassigned_fClip : ptr GrClip) (this : GrPathRenderer)
    (args : StencilPathArgs.t) (target : Frame)
    (path : SkPath) (provider : GrResourceProvider) (dc : GrDrawContext) :
  override_onStencilPath this = None →
  StencilPathArgs.validate true args = Done tt →
  StencilPathArgs.fPath args = Some path →
  StencilPathArgs.fResourceProvider args = Some provider →
  StencilPathArgs.fDrawContext args = Some dc →
  isInverseFillType path = false →
  onGetStencilSupport this path = kNoRestriction_StencilSupport →
  nonnull unassigned_fClip = true →
  nonnull (shaderCaps provider) = true →
  let query :=
    {| CanDrawPathArgs.fShaderCaps := shaderCaps provider;
       CanDrawPathArgs.fViewMatrix := StencilPathArgs.fViewMatrix args;
       CanDrawPathArgs.fPath := Some path;
       CanDrawPathArgs.fStyle := Some SimpleFill;
       CanDrawPathArgs.fAntiAlias := false;
       CanDrawPathArgs.fHasUserStencilSettings := true;
       CanDrawPathArgs.fIsStencilBufferMSAA :=
         isStencilBufferMultisampled dc |} in
  stencilPath true unassigned_fClip this args target
  = if onCanDrawPath this query then
      target_of
        (onDrawPath this (fallback_request unassigned_fClip args) target)
    else Halt in_drawPath_canDrawPath.
Proof.
  intros Hnone Hvalid Hpath Hprovider Hdc Hfill Hlevel Hclip Hcaps query.
  rewrite (stencilPath_debug_valid _ _ _ _ _ Hvalid Hpath).
  rewrite (getStencilSupport_not_inverse _ _ _ Hfill), Hlevel. simpl.
  rewrite (onStencilPath_inherited _ _ _ _ _ Hnone).
  destruct (StencilPathArgs_validate_debug _ Hvalid)
    as (provider' & dc' & matrix & path' & Hp & Hd & Hm & Hpath' & Hempty).
  destruct (nonnull_Some _ Hclip) as [clip Hsome].
  destruct (nonnull_Some _ Hcaps) as [caps Hshader].
  assert (path' = path) as -> by congruence.
  assert (Hreq : DrawPathArgs.validate true
                   (fallback_request unassigned_fClip args) = Done tt).
  { unfold DrawPathArgs.validate, fallback_request. simpl.
    rewrite Hp, Hd, Hm, Hpath', Hsome. simpl. rewrite Hempty. reflexivity. }
  rewrite (drawPath_debug_valid _ _ _ provider kIncrementStencil dc path
             SimpleFill Hreq Hprovider eq_refl Hdc Hpath eq_refl).
  assert (Hquery : canArgs_of (fallback_request unassigned_fClip args)
                     provider kIncrementStencil dc = query).
  { unfold canArgs_of, fallback_request, query. simpl.
    rewrite Hpath. reflexivity. }
  rewrite Hquery.
  assert (Hcan : canDrawPath true this query = Done (onCanDrawPath this query)).
  { unfold canDrawPath, CanDrawPathArgs.validate, query. simpl.
    rewrite Hshader, Hm. simpl. rewrite Hempty. reflexivity. }
  rewrite Hcan. simpl.
  destruct (onCanDrawPath this query); [|reflexivity]. simpl.
  rewrite (getStencilSupport_not_inverse _ _ _ Hfill), Hlevel. reflexivity.
Qed.

(** X9. Outside the one case handed to the thin-stroke test (a plain stroke
    without path effect), [IsStrokeHairlineOrEquivalent] does not depend on
    the matrix, answers true exactly for a hairline style without path
    effect, leaves every cell other than the coverage cell as it was, and
    leaves all of memory as it was when it answers false. *)
Theorem IsStrokeHairlineOrEquivalent_decided_here
    (style : GrStyle) (matrix : SkMatrix) (outCoverage : ptr loc)
    (mem : gmap loc SkScalar) :
  nonnull (pathEffect style) = true
  ∨ getStyle (strokeRec style) ≠ kStroke_Style →
  (∀ matrix',
     IsStrokeHairlineOrEquivalent style matrix' outCoverage mem
     = IsStrokeHairlineOrEquivalent style matrix outCoverage mem)
  ∧ ((IsStrokeHairlineOrEquivalent style matrix outCoverage mem).1 = true
     ↔ pathEffect style = None
       ∧ getStyle (strokeRec style) = kHairline_Style)
  ∧ (∀ cell, outCoverage ≠ Some cell →
       (IsStrokeHairlineOrEquivalent style matrix outCoverage mem).2 !! cell
       = mem !! cell)
  ∧ ((IsStrokeHairlineOrEquivalent style matrix outCoverage mem).1 = false →
     (IsStrokeHairlineOrEquivalent style matrix outCoverage mem).2 = mem).
Proof.
  intros Hdecided. unfold IsStrokeHairlineOrEquivalent, isHairlineStyle.
  destruct (pathEffect style) as [effect|]; simpl.
  { repeat split; try discriminate. by intros [? _]. }
  destruct Hdecided as [? | Hstroke]; [discriminate|].
  destruct (getStyle (strokeRec style)) eqn:Hstyle; simpl;
    try contradiction; repeat split; try discriminate; try by intros [_ ?].
  intros cell Hother. destruct outCoverage as [c|]; [|reflexivity].
  apply lookup_insert_ne. congruence.
Qed.

End inherited_stencil.

(** * Properties of android_install_app *)

(** ** The argument loop *)

Lemma is_option_nonempty word : is_option word = true → word ≠ "".
Proof. by destruct word. Qed.

Lemma positional_cons_option word args :
  is_option word = true → positional (word :: args) = positional args.
Proof.
  intros Hoption. unfold positional. rewrite filter_cons_False; [done|].
  congruence.
Qed.

Lemma positional_cons_word word args :
  is_option word = false →
  positional (word :: args) = word :: positional args.
Proof. intros Hword. unfold positional. by rewrite filter_cons_True. Qed.

Lemma deprecations_cons_r args :
  deprecations ("-r" :: args) = deprecated :: deprecations args.
Proof. reflexivity. Qed.

Lemma deprecations_cons_other word args :
  word ≠ "-r" → deprecations (word :: args) = deprecations args.
Proof.
  intros Hother. unfold deprecations. by rewrite filter_cons_False.
Qed.

(** One step of the loop, by the branch the word takes. *)
Lemma parse_args_f rest forceRemoval app :
  parse_args ("-f" :: rest) forceRemoval app = parse_args rest true app.
Proof. reflexivity. Qed.

Lemma parse_args_h rest forceRemoval app :
  parse_args ("-h" :: rest) forceRemoval app = (print_usage, Exit 0).
Proof. reflexivity. Qed.

Lemma parse_args_r rest forceRemoval app :
  parse_args ("-r" :: rest) forceRemoval app
  = (deprecated :: (parse_args rest forceRemoval app).1,
     (parse_args rest forceRemoval app).2).
Proof. simpl. by destruct (parse_args rest forceRemoval app). Qed.

Lemma parse_args_unknown word rest forceRemoval app :
  is_option word = true → word ≠ "-f" → word ≠ "-h" → word ≠ "-r" →
  parse_args (word :: rest) forceRemoval app
  = (("ERROR: unrecognized option " +:+ word) :: print_usage, Exit 1).
Proof.
  intros Hoption Hf Hh Hr. simpl.
  rewrite !bool_decide_eq_false_2 by assumption. by rewrite Hoption.
Qed.

Lemma parse_args_word word rest forceRemoval app :
  is_option word = false →
  parse_args (word :: rest) forceRemoval app
  = if bool_decide (app = "") then parse_args rest forceRemoval word
    else (["ERROR: app already defined " +:+ app], Exit 1).
Proof.
  intros Hword. simpl.
  rewrite !bool_decide_eq_false_2 by (intros ->; discriminate).
  rewrite Hword. by destruct (bool_decide (app = "")).
Qed.

(** The four ways a word is read. *)
Lemma word_cases word :
  word = "-f" ∨ word = "-h" ∨ word = "-r"
  ∨ (is_option word = true ∧ word ≠ "-f" ∧ word ≠ "-h" ∧ word ≠ "-r")
  ∨ is_option word = false.
Proof.
  destruct (decide (word = "-f")); [tauto|].
  destruct (decide (word = "-h")); [tauto|].
  destruct (decide (word = "-r")); [tauto|].
  destruct (is_option word); tauto.
Qed.

Lemma parse_args_exits before after forceRemoval app lines code :
  parse_args before forceRemoval app = (lines, Exit code) →
  parse_args (before ++ after) forceRemoval app = (lines, Exit code).
Proof.
  revert forceRemoval app lines.
  induction before as [|word before IH]; intros forceRemoval app lines Hexit;
    [done|].
  rewrite <- app_comm_cons.
  destruct (word_cases word)
    as [-> | [-> | [-> | [(Hoption & Hf & Hh & Hr) | Hword]]]].
  - rewrite parse_args_f in Hexit |- *. by apply IH.
  - by rewrite parse_args_h in Hexit |- *.
  - rewrite parse_args_r in Hexit |- *.
    destruct (parse_args before forceRemoval app) as [lines' result] eqn:Hrest.
    simpl in Hexit. injection Hexit as <- ->.
    by rewrite (IH _ _ _ Hrest).
  - by rewrite parse_args_unknown in Hexit |- *.
  - rewrite parse_args_word in Hexit |- * by done.
    destruct (bool_decide (app = "")); [by apply IH | done].
Qed.

Lemma parse_args_goes_on before after forceRemoval app lines forceRemoval'
    app' :
  parse_args before forceRemoval app = (lines, Parsed forceRemoval' app') →
  parse_args (before ++ after) forceRemoval app
  = (lines ++ (parse_args after forceRemoval' app').1,
     (parse_args after forceRemoval' app').2).
Proof.
  revert forceRemoval app lines.
  induction before as [|word before IH]; intros forceRemoval app lines Hparsed.
  - simplify_eq/=. by destruct (parse_args after forceRemoval' app').
  - rewrite <- app_comm_cons.
    destruct (word_cases word)
      as [-> | [-> | [-> | [(Hoption & Hf & Hh & Hr) | Hword]]]].
    + rewrite parse_args_f in Hparsed |- *. by apply IH.
    + by rewrite parse_args_h in Hparsed.
    + rewrite parse_args_r in Hparsed |- *.
      destruct (parse_args before forceRemoval app) as [lines' result]
        eqn:Hrest.
      simpl in Hparsed. injection Hparsed as <- ->.
      by rewrite (IH _ _ _ Hrest).
    + by rewrite parse_args_unknown in Hparsed.
    + rewrite parse_args_word in Hparsed |- * by done.
      destruct (bool_decide (app = "")); [by apply IH | done].
Qed.

(** X10. The loop reads left to right and keeps no more than its two
    variables: parsing a concatenation is parsing the first part and then
    the second from the state reached, the lines printed in that order; an
    exit in the first part ends the run whatever follows. *)
Theorem parse_args_app
    (before after : list string) (forceRemoval : bool) (app : string) :
  parse_args (before ++ after) forceRemoval app
  = match parse_args before forceRemoval app with
    | (lines, Exit code) => (lines, Exit code)
    | (lines, Parsed forceRemoval' app') =>
      (lines ++ (parse_args after forceRemoval' app').1,
       (parse_args after forceRemoval' app').2)
    end.
Proof.
  destruct (parse_args before forceRemoval app)
    as [lines [code | forceRemoval' app']] eqn:Hbefore.
  - by apply parse_args_exits.
  - by apply parse_args_goes_on.
Qed.

Lemma bool_decide_f_cons word rest :
  bool_decide ("-f" ∈ word :: rest)
  = bool_decide (word = "-f") || bool_decide ("-f" ∈ rest).
Proof.
  destruct (decide (word = "-f")) as [-> | Hother].
  - rewrite (bool_decide_eq_true_2 ("-f" ∈ "-f" :: rest))
      by apply list_elem_of_here.
    by rewrite (bool_decide_eq_true_2 ("-f" = "-f")).
  - rewrite (bool_decide_eq_false_2 (word = "-f")) by done. simpl.
    apply bool_decide_ext. rewrite elem_of_cons.
    split; [intros [Hhere | Hrest]; [by symmetry in Hhere | done] | by right].
Qed.

Lemma parse_args_runs_through args forceRemoval app :
  Forall (λ word, word ≠ "") args →
  "-h" ∉ args →
  Forall known_option args →
  room_for app args →
  parse_args args forceRemoval app
  = (deprecations args,
     Parsed (forceRemoval || bool_decide ("-f" ∈ args))
       (if bool_decide (app = "") then default "" (head (positional args))
        else app)).
Proof.
  revert forceRemoval app.
  induction args as [|word rest IH]; intros forceRemoval app Hwords Hhelp
    Hknown Hroom.
  - rewrite (bool_decide_eq_false_2 ("-f" ∈ [])) by apply not_elem_of_nil.
    rewrite orb_false_r. simpl. by case_bool_decide; subst.
  - apply Forall_cons in Hwords as [Hword Hwords].
    apply Forall_cons in Hknown as [Hthis Hknown].
    apply not_elem_of_cons in Hhelp as [Hnoth Hhelp].
    rewrite bool_decide_f_cons.
    destruct (word_cases word)
      as [-> | [-> | [-> | [(Hoption & Hf & Hh & Hr) | Hplain]]]].
    + rewrite parse_args_f, (IH true app Hwords Hhelp Hknown).
      * by rewrite positional_cons_option, deprecations_cons_other,
          orb_true_r.
      * unfold room_for in *. by rewrite positional_cons_option in Hroom.
    + done.
    + rewrite parse_args_r, (IH forceRemoval app Hwords Hhelp Hknown).
      * by rewrite positional_cons_option, deprecations_cons_r.
      * unfold room_for in *. by rewrite positional_cons_option in Hroom.
    + destruct (Hthis Hoption); done.
    + rewrite parse_args_word by done.
      unfold room_for in Hroom.
      rewrite positional_cons_word in Hroom |- * by done.
      assert (word ≠ "-f") by (intros ->; discriminate).
      assert (word ≠ "-r") by (intros ->; discriminate).
      rewrite (bool_decide_eq_false_2 (word = "-f")) by done.
      rewrite deprecations_cons_other by done.
      destruct (bool_decide (app = "")); [|done].
      assert (Hnone : positional rest = []).
      { simpl in Hroom. destruct (positional rest); [done | simpl in *; lia]. }
      rewrite (IH forceRemoval word Hwords Hhelp Hknown).
      * by rewrite (bool_decide_eq_false_2 (word = "")).
      * unfold room_for. by rewrite (bool_decide_eq_false_2 (word = "")).
Qed.

Lemma parse_args_ran_through args forceRemoval app lines forceRemoval' app' :
  Forall (λ word, word ≠ "") args →
  parse_args args forceRemoval app = (lines, Parsed forceRemoval' app') →
  ("-h" ∉ args) ∧ Forall known_option args ∧ room_for app args.
Proof.
  revert forceRemoval app lines.
  induction args as [|word rest IH]; intros forceRemoval app lines Hwords
    Hparsed.
  - split; [apply not_elem_of_nil|]. split; [constructor|].
    unfold room_for. destruct (bool_decide (app = "")); [simpl; lia | done].
  - apply Forall_cons in Hwords as [Hword Hwords].
    destruct (word_cases word)
      as [-> | [-> | [-> | [(Hoption & Hf & Hh & Hr) | Hplain]]]].
    + rewrite parse_args_f in Hparsed.
      destruct (IH _ _ _ Hwords Hparsed) as (Hhelp & Hknown & Hroom).
      split; [apply not_elem_of_cons; by split|].
      split; [constructor; [intros _; by left | done]|].
      unfold room_for in *. by rewrite positional_cons_option.
    + by rewrite parse_args_h in Hparsed.
    + rewrite parse_args_r in Hparsed.
      destruct (parse_args rest forceRemoval app) as [lines' result] eqn:Hrest.
      simpl in Hparsed. injection Hparsed as _ ->.
      destruct (IH _ _ _ Hwords Hrest) as (Hhelp & Hknown & Hroom).
      split; [apply not_elem_of_cons; by split|].
      split; [constructor; [intros _; by right | done]|].
      unfold room_for in *. by rewrite positional_cons_option.
    + by rewrite parse_args_unknown in Hparsed.
    + rewrite parse_args_word in Hparsed by done.
      destruct (bool_decide (app = "")) eqn:Happ; [|done].
      destruct (IH _ _ _ Hwords Hparsed) as (Hhelp & Hknown & Hroom).
      split; [apply not_elem_of_cons; split; [|done]; intros <-; discriminate|].
      split; [constructor; [intros ?; congruence | done]|].
      unfold room_for in *. rewrite Happ, positional_cons_word by done.
      rewrite bool_decide_eq_false_2 in Hroom by done.
      rewrite Hroom. simpl. lia.
Qed.

(** ** Whole runs *)

Lemma install_status env forceRemoval app :
  status (install env forceRemoval app) = None.
Proof.
  unfold install. by destruct (bool_decide (app = "")), forceRemoval.
Qed.

Lemma parse_args_of_accepted args :
  Forall (λ word, word ≠ "") args →
  accepted args →
  parse_args args false ""
  = (deprecations args,
     Parsed (bool_decide ("-f" ∈ args)) (default "" (head (positional args)))).
Proof.
  intros Hwords (Hhelp & Hknown & Hroom).
  by rewrite (parse_args_runs_through _ false "" Hwords Hhelp Hknown).
Qed.

(** X11. A command line of non-empty words runs through to the install
    exactly when it is accepted: no "-h", no option besides "-f" and "-r",
    at most one other word. The run then prints one deprecation line per
    "-r" and goes on as the script does after the loop, forcing removal
    exactly when "-f" occurs, for the one word that is no option, if any. *)
Theorem android_install_app_accepted (env : Environment) :
  Forall (λ word, word ≠ "") (APP_ARGS env) →
  (status (android_install_app env) = None ↔ accepted (APP_ARGS env))
  ∧ (accepted (APP_ARGS env) →
     let run :=
       install env (bool_decide ("-f" ∈ APP_ARGS env))
         (default "" (head (positional (APP_ARGS env)))) in
     android_install_app env
     = {| stdout := deprecations (APP_ARGS env) ++ stdout run;
          commands := commands run;
          status := None |}).
Proof.
  intros Hwords.
  pose proof (parse_args_of_accepted _ Hwords) as Hruns.
  split; [split|].
  - unfold android_install_app.
    destruct (parse_args (APP_ARGS env) false "") as [lines [code|force app]]
      eqn:Hparsed; [done|].
    intros _. by apply (parse_args_ran_through _ _ _ _ _ _ Hwords Hparsed).
  - intros Haccepted. unfold android_install_app.
    rewrite (Hruns Haccepted). apply install_status.
  - intros Haccepted run. unfold android_install_app.
    rewrite (Hruns Haccepted). by rewrite install_status.
Qed.

Lemma head_positional_nonempty args first :
  Forall (λ word, word ≠ "") args →
  head (positional args) = Some first →
  first ≠ "".
Proof.
  intros Hwords Hhead.
  assert (Hin : first ∈ positional args)
    by (destruct (positional args); simplify_eq/=; apply list_elem_of_here).
  apply list_elem_of_filter in Hin as [_ Hin].
  by apply (proj1 (Forall_forall _ _) Hwords).
Qed.

(** X12. The word that ends a run early. After words that are accepted, a
    "-h" prints the usage and exits with status 0; an option that is none of
    "-f", "-h", "-r" reports it, prints the usage and exits with status 1; a
    second word that is no option reports the first one and exits with
    status 1. In each case no adb command is run, and the words after it are
    not read. *)
Theorem android_install_app_first_offence
    (env : Environment) (before : list string) (word : string)
    (after : list string) :
  APP_ARGS env = before ++ word :: after →
  Forall (λ word, word ≠ "") before →
  accepted before →
  (word = "-h" →
     android_install_app env
     = {| stdout := deprecations before ++ print_usage;
          commands := [];
          status := Some 0 |})
  ∧ (is_option word = true → word ≠ "-f" → word ≠ "-h" → word ≠ "-r" →
     android_install_app env
     = {| stdout := deprecations before
                    ++ ("ERROR: unrecognized option " +:+ word) :: print_usage;
          commands := [];
          status := Some 1 |})
  ∧ (is_option word = false →
     ∀ first, head (positional before) = Some first →
       android_install_app env
       = {| stdout := deprecations before
                      ++ ["ERROR: app already defined " +:+ first];
            commands := [];
            status := Some 1 |}).
Proof.
  intros Hargs Hwords Haccepted. unfold android_install_app.
  rewrite Hargs,
    (parse_args_goes_on _ _ _ _ _ _ _
       (parse_args_of_accepted _ Hwords Haccepted)).
  split; [|split].
  - intros ->. by rewrite parse_args_h.
  - intros Hoption Hf Hh Hr. by rewrite parse_args_unknown.
  - intros Hplain first Hfirst. rewrite parse_args_word, Hfirst by done.
    simpl. rewrite bool_decide_eq_false_2; [done|].
    by apply (head_positional_nonempty before).
Qed.

Lemma install_with_args env args forceRemoval app :
  install (with_args env args) forceRemoval app = install env forceRemoval app.
Proof. reflexivity. Qed.

Lemma accepted_Permutation args args' :
  args ≡ₚ args' → accepted args → accepted args'.
Proof.
  intros Hperm (Hhelp & Hknown & Hroom). unfold accepted, positional.
  by rewrite <- Hperm.
Qed.

Lemma short_Permutation (l l' : list string) :
  (length l ≤ 1)%nat → l ≡ₚ l' → l = l'.
Proof.
  intros Hshort Hperm. destruct l as [|x [|y l]]; simpl in Hshort; [| |lia].
  - by apply Permutation_nil_l in Hperm.
  - by apply Permutation_singleton_l in Hperm.
Qed.

(** X13. On an accepted command line the order of the words does not
    matter: every rearrangement gives the same run, output included. *)
Theorem android_install_app_order_irrelevant
    (env : Environment) (args args' : list string) :
  Forall (λ word, word ≠ "") args →
  accepted args →
  args ≡ₚ args' →
  android_install_app (with_args env args')
  = android_install_app (with_args env args).
Proof.
  intros Hwords Haccepted Hperm.
  assert (Hwords' : Forall (λ word, word ≠ "") args') by by rewrite <- Hperm.
  pose proof (accepted_Permutation _ _ Hperm Haccepted) as Haccepted'.
  unfold android_install_app. simpl.
  rewrite (parse_args_of_accepted _ Hwords Haccepted),
    (parse_args_of_accepted _ Hwords' Haccepted'), !install_with_args.
  assert (deprecations args' = deprecations args) as ->.
  { unfold deprecations. by rewrite <- Hperm. }
  assert (bool_decide ("-f" ∈ args') = bool_decide ("-f" ∈ args)) as ->.
  { apply bool_decide_ext. by rewrite <- Hperm. }
  assert (positional args' = positional args) as ->; [|done].
  symmetry. apply short_Permutation; [apply Haccepted|].
  unfold positional. by rewrite Hperm.
Qed.

(** ** "-r" *)

Lemma without_deprecations_usage :
  without_deprecations print_usage = print_usage.
Proof. reflexivity. Qed.

Lemma parse_args_without_r args forceRemoval app :
  parse_args (without_r args) forceRemoval app
  = (without_deprecations (parse_args args forceRemoval app).1,
     (parse_args args forceRemoval app).2).
Proof.
  revert forceRemoval app.
  induction args as [|word rest IH]; intros forceRemoval app; [done|].
  unfold without_r in *.
  destruct (word_cases word)
    as [-> | [-> | [-> | [(Hoption & Hf & Hh & Hr) | Hplain]]]].
  - rewrite filter_cons_True by done. rewrite !parse_args_f. apply IH.
  - rewrite filter_cons_True by done. by rewrite !parse_args_h.
  - rewrite filter_cons_False by (intros Hne; by apply Hne).
    rewrite parse_args_r, IH. simpl.
    unfold without_deprecations. by rewrite filter_cons_False by (by intros ?).
  - rewrite filter_cons_True by done. rewrite !parse_args_unknown by done.
    simpl. unfold without_deprecations.
    rewrite filter_cons_True; [done|].
    destruct word as [|c word]; [done|]. simpl. discriminate.
  - assert (word ≠ "-r") by (intros ->; discriminate).
    rewrite filter_cons_True by done. rewrite !parse_args_word by done.
    destruct (bool_decide (app = "")); [apply IH|]. simpl.
    unfold without_deprecations. rewrite filter_cons_True; [done|].
    simpl. discriminate.
Qed.

Lemma install_without_deprecations env forceRemoval app :
  without_deprecations (stdout (install env forceRemoval app))
  = stdout (install env forceRemoval app).
Proof.
  unfold install, without_deprecations.
  destruct (bool_decide (app = "")), forceRemoval; simpl;
    repeat (rewrite filter_cons_True by (simpl; discriminate)); done.
Qed.

(** X14. "-r" is a no-op wherever it stands: striking every "-r" from a
    command line, accepted or not, leaves the adb commands and the exit
    status as they were, and the output too but for its deprecation
    lines. *)
Theorem android_install_app_r_is_no_op (env : Environment) :
  let run := android_install_app env in
  let run' := android_install_app (with_args env (without_r (APP_ARGS env))) in
  commands run' = commands run
  ∧ status run' = status run
  ∧ stdout run' = without_deprecations (stdout run).
Proof.
  unfold android_install_app. simpl. rewrite parse_args_without_r.
  destruct (parse_args (APP_ARGS env) false "") as [lines [code|force app]];
    simpl; [done|].
  rewrite install_with_args. split; [done|]. split; [done|].
  unfold without_deprecations. rewrite filter_app.
  f_equal. symmetry. apply install_without_deprecations.
Qed.

(** ** App names *)

Lemma to_lower_idempotent c : to_lower (to_lower c) = to_lower c.
Proof. destruct c as [[] [] [] [] [] [] [] []]; reflexivity. Qed.

Lemma to_lower_not_upper c : is_upper (to_lower c) = false.
Proof. destruct c as [[] [] [] [] [] [] [] []]; reflexivity. Qed.

Lemma tr_upper_lower_idempotent s :
  tr_upper_lower (tr_upper_lower s) = tr_upper_lower s.
Proof.
  induction s as [|c s IH]; [done|]. simpl.
  by rewrite to_lower_idempotent, IH.
Qed.

Lemma tr_upper_lower_empty s : tr_upper_lower s = "" ↔ s = "".
Proof. by destruct s. Qed.

Lemma tr_upper_lower_not_SampleApp s : tr_upper_lower s ≠ "SampleApp".
Proof.
  destruct s as [|c s]; [done|]. simpl. intros [= Hc _].
  pose proof (to_lower_not_upper c) as Hlower. by rewrite Hc in Hlower.
Qed.

(** X15. App names are read without regard to case, with one exception: the
    script after the loop does the same for a name and for its lower-case
    form, unless the name is SampleApp, the one spelling that selects
    sample_app. A missing name stands for SampleApp: but for the line that
    says so, the run is the same. *)
Theorem install_ignores_case
    (env : Environment) (forceRemoval : bool) (app : string) :
  (app ≠ "SampleApp" →
     install env forceRemoval (tr_upper_lower app)
     = install env forceRemoval app)
  ∧ commands (install env forceRemoval "")
    = commands (install env forceRemoval "SampleApp")
  ∧ stdout (install env forceRemoval "")
    = "Defaulting to installing SampleApp."
      :: stdout (install env forceRemoval "SampleApp").
Proof.
  split; [|by destruct forceRemoval].
  intros Hother. unfold install.
  destruct (decide (app = "")) as [-> | Hnamed]; [done|].
  rewrite (bool_decide_eq_false_2 (tr_upper_lower app = ""))
    by by rewrite tr_upper_lower_empty.
  rewrite (bool_decide_eq_false_2 (app = "")) by done.
  rewrite (bool_decide_eq_false_2 (tr_upper_lower app = "SampleApp"))
    by apply tr_upper_lower_not_SampleApp.
  rewrite (bool_decide_eq_false_2 (app = "SampleApp")) by done.
  by rewrite tr_upper_lower_idempotent.
Qed.

Lemma parse_args_keeps_name args forceRemoval app lines forceRemoval' app' :
  is_option app = false →
  parse_args args forceRemoval app = (lines, Parsed forceRemoval' app') →
  is_option app' = false.
Proof.
  revert forceRemoval app lines.
  induction args as [|word rest IH]; intros forceRemoval app lines Hname
    Hparsed.
  - by simplify_eq/=.
  - destruct (word_cases word)
      as [-> | [-> | [-> | [(Hoption & Hf & Hh & Hr) | Hplain]]]].
    + rewrite parse_args_f in Hparsed. by eapply IH.
    + by rewrite parse_args_h in Hparsed.
    + rewrite parse_args_r in Hparsed.
      destruct (parse_args rest forceRemoval app) as [lines' result] eqn:Hrest.
      simpl in Hparsed. injection Hparsed as _ ->. by eapply IH.
    + by rewrite parse_args_unknown in Hparsed.
    + rewrite parse_args_word in Hparsed by done.
      destruct (bool_decide (app = "")); [by eapply (IH _ word) | done].
Qed.

(** X16. The name the loop leaves in [app] never begins with "-", whatever
    the command line: the [echo $app] that lower-cases it cannot take it for
    one of its own options. A run that passes the loop prints and installs
    under a name that is no option. *)
Theorem android_install_app_name_is_no_option
    (args : list string) (lines : list string) (forceRemoval : bool)
    (app : string) :
  parse_args args false "" = (lines, Parsed forceRemoval app) →
  let named := if bool_decide (app = "") then "SampleApp" else app in
  let echoed :=
    if bool_decide (named = "SampleApp") then "sample_app" else named in
  is_option app = false
  ∧ is_option echoed = false
  ∧ is_option (tr_upper_lower echoed) = false.
Proof.
  intros Hparsed named echoed.
  assert (Hname : is_option app = false)
    by by apply (parse_args_keeps_name args false "" lines forceRemoval).
  split; [done|]. unfold echoed, named.
  case_bool_decide; [done|]. case_bool_decide; [done|].
  split; [done|].
  destruct app as [|c app]; [done|]. simpl in *.
  destruct c as [[] [] [] [] [] [] [] []]; done.
Qed.

(** ** The properties at work *)

Lemma android_install_app_accepted_viewer :
  Forall (λ word, word ≠ "") ["-r"; "Viewer"; "-f"; "-f"]
  ∧ accepted ["-r"; "Viewer"; "-f"; "-f"]
  ∧ android_install_app (a_device ["-r"; "Viewer"; "-f"; "-f"])
    = {| stdout :=
           [ "DEPRECATED: -r is now a no-op";
             "Forcing removal of previously installed packages";
             "Installing viewer from viewer/build/outputs/apk/viewer-arm64-debug.apk" ];
         commands :=
           [ ["adb"; "-s"; "0123"; "uninstall"; "com.skia"];
             ["adb"; "-s"; "0123"; "install"; "-r";
              "/skia/platform_tools/android/bin/../apps/viewer/build/outputs/apk/viewer-arm64-debug.apk"] ];
         status := None |}.
Proof.
  assert (Hwords : Forall (λ word, word ≠ "") ["-r"; "Viewer"; "-f"; "-f"])
    by (apply (bool_decide_unpack _); vm_compute; exact I).
  assert (Haccepted : accepted ["-r"; "Viewer"; "-f"; "-f"])
    by (apply (bool_decide_unpack _); vm_compute; exact I).
  destruct (android_install_app_accepted
              (a_device ["-r"; "Viewer"; "-f"; "-f"]) Hwords) as [_ Hrun].
  split; [exact Hwords|]. split; [exact Haccepted|].
  rewrite (Hrun Haccepted). reflexivity.
Defined.

Lemma android_install_app_name_is_no_option_viewer :
  parse_args ["-f"; "Viewer"] false "" = ([], Parsed true "Viewer")
  ∧ is_option "Viewer" = false
  ∧ is_option (tr_upper_lower "Viewer") = false.
Proof.
  destruct (android_install_app_name_is_no_option
              ["-f"; "Viewer"] [] true "Viewer" eq_refl) as (Hname & _ & Hecho).
  split; [reflexivity|]. split; [exact Hname | exact Hecho].
Defined.

Lemma android_install_app_first_offence_second_name :
  APP_ARGS (a_device ["-r"; "Viewer"; "SampleApp"; "-h"])
  = ["-r"; "Viewer"] ++ "SampleApp" :: ["-h"]
  ∧ accepted ["-r"; "Viewer"]
  ∧ android_install_app (a_device ["-r"; "Viewer"; "SampleApp"; "-h"])
    = {| stdout := [ "DEPRECATED: -r is now a no-op";
                     "ERROR: app already defined Viewer" ];
         commands := [];
         status := Some 1 |}.
Proof.
  assert (Hwords : Forall (λ word, word ≠ "") ["-r"; "Viewer"])
    by (apply (bool_decide_unpack _); vm_compute; exact I).
  assert (Haccepted : accepted ["-r"; "Viewer"])
    by (apply (bool_decide_unpack _); vm_compute; exact I).
  destruct (android_install_app_first_offence
              (a_device ["-r"; "Viewer"; "SampleApp"; "-h"])
              ["-r"; "Viewer"] "SampleApp" ["-h"] eq_refl Hwords Haccepted)
    as (_ & _ & Hsecond).
  split; [reflexivity|]. split; [exact Haccepted|].
  exact (Hsecond eq_refl "Viewer" eq_refl).
Defined.

Lemma android_install_app_order_irrelevant_viewer :
  accepted ["-f"; "Viewer"]
  ∧ ["-f"; "Viewer"] ≡ₚ ["Viewer"; "-f"]
  ∧ android_install_app (a_device ["Viewer"; "-f"])
    = android_install_app (a_device ["-f"; "Viewer"]).
Proof.
  assert (Hwords : Forall (λ word, word ≠ "") ["-f"; "Viewer"])
    by (apply (bool_decide_unpack _); vm_compute; exact I).
  assert (Haccepted : accepted ["-f"; "Viewer"])
    by (apply (bool_decide_unpack _); vm_compute; exact I).
  assert (Hperm : ["-f"; "Viewer"] ≡ₚ ["Viewer"; "-f"]) by apply perm_swap.
  split; [exact Haccepted|]. split; [exact Hperm|].
  exact (android_install_app_order_irrelevant (a_device [])
           ["-f"; "Viewer"] ["Viewer"; "-f"] Hwords Haccepted Hperm).
Defined.

Lemma install_ignores_case_viewer :
  "VIEWER" ≠ "SampleApp"
  ∧ install (a_device []) false "viewer" = install (a_device []) false "VIEWER"
  ∧ commands (install (a_device []) false "sampleapp")
    ≠ commands (install (a_device []) false "SampleApp").
Proof.
  assert (Hother : "VIEWER" ≠ "SampleApp") by discriminate.
  destruct (install_ignores_case (a_device []) false "VIEWER") as [Hcase _].
  split; [exact Hother|]. split; [exact (Hcase Hother) | discriminate].
Defined.

Section more_examples.
#[local] Existing Instance fixture_types.
#[local] Existing Instance fixture_ops.

Lemma canDrawPath_cases_refuser :
  canDrawPath true refuser
    (canArgs_of (draw_request kUnused square SimpleFill)
       the_provider kUnused single_sampled) = Done false
  ∧ canDrawPath false refuser
      (canArgs_of (draw_request kUnused square SimpleFill)
         the_provider kUnused single_sampled) = Done false.
Proof.
  destruct (canDrawPath_cases refuser
              (canArgs_of (draw_request kUnused square SimpleFill)
                 the_provider kUnused single_sampled))
    as (Hoptimized & Hdebug & _).
  split; [exact (Hdebug eq_refl) | exact Hoptimized].
Defined.



Lemma inherited_stencilPath_null_fClip_halts_recorder :
  override_onStencilPath recorder = None
  ∧ StencilPathArgs.fClip (stencil_request square) = Some tt
  ∧ stencilPath true null_clip recorder (stencil_request square) []
    = Halt (in_DrawPathArgs_validate of_fClip).
Proof.
  split; [reflexivity|]. split; [reflexivity|].
  apply (inherited_stencilPath_null_fClip_halts recorder
           (stencil_request square) [] square);
    [reflexivity | reflexivity | reflexivity | reflexivity | discriminate].
Defined.

Lemma inherited_stencilPath_needs_canDrawPath_fixture :
  stencilPath true stale_clip recorder (stencil_request square) []
  = Done [0xFFFFFFFF]
  ∧ stencilPath true stale_clip refuser (stencil_request square) []
    = Halt in_drawPath_canDrawPath.
Proof.
  split.
  - rewrite (@inherited_stencilPath_needs_canDrawPath
               fixture_types fixture_ops stale_clip recorder
               (stencil_request square) [] square the_provider single_sampled
               eq_refl eq_refl eq_refl eq_refl eq_refl eq_refl eq_refl eq_refl
               eq_refl).
    reflexivity.
  - rewrite (@inherited_stencilPath_needs_canDrawPath
               fixture_types fixture_ops stale_clip refuser
               (stencil_request square) [] square the_provider single_sampled
               eq_refl eq_refl eq_refl eq_refl eq_refl eq_refl eq_refl eq_refl
               eq_refl).
    reflexivity.
Defined.

Lemma IsStrokeHairlineOrEquivalent_decided_here_dashed :
  nonnull (pathEffect dashed) = true
  ∧ (IsStrokeHairlineOrEquivalent dashed 3 (Some 7%N) {[ 7%N := 5 ]}).1 = false
  ∧ (IsStrokeHairlineOrEquivalent dashed 3 (Some 7%N) {[ 7%N := 5 ]}).2
    = {[ 7%N := 5 ]}.
Proof.
  destruct (IsStrokeHairlineOrEquivalent_decided_here dashed 3 (Some 7%N)
              {[ 7%N := 5 ]} (or_introl eq_refl)) as (_ & _ & _ & Hkept).
  split; [reflexivity|]. split; [reflexivity | exact (Hkept eq_refl)].
Defined.

End more_examples.
